(** * Assignment store of the msu-discordbot: a shallow embedding of [bot.py]

    The development follows the source file top to bottom: Python text and
    integers, the parts of [datetime] and [json] the bot calls, the
    [AssignmentManager] static methods, and the three slash-command handlers
    [add_assignment], [list_assignments] and [remove_assignment].

    Python [str] values are sequences of Unicode code points; the file on disk
    is modelled by the text that [open(..., "r").read()] hands to [json.load].
    Exceptions are data: a computation either returns or raises. *)

From Stdlib Require Import List ZArith NArith Lia Bool String Ascii.
From Stdlib Require Import Sorted Permutation.
From Stdlib Require DecimalFacts DecimalPos DecimalN.
Import ListNotations.

Local Open Scope Z_scope.

(** ** Python text *)

Module Py.

(** A Python [str]: its code points, in order. *)
Definition str := list N.

Fixpoint lit (s : string) : str :=
  match s with
  | EmptyString => []
  | String a r => N_of_ascii a :: lit r
  end.

Fixpoint str_eqb (a b : str) : bool :=
  match a, b with
  | [], [] => true
  | x :: a', y :: b' => N.eqb x y && str_eqb a' b'
  | _, _ => false
  end.

(** Exceptions the modelled code can raise.  [JSONDecodeError] is a subclass
    of [ValueError] in Python, which [is_ValueError] records. *)
Inductive exn :=
| ValueError | JSONDecodeError | TypeError | KeyError | AttributeError
| RecursionError.

Definition is_ValueError (e : exn) : bool :=
  match e with
  | ValueError | JSONDecodeError => true
  | _ => false
  end.

Inductive result (A : Type) :=
| Returned (a : A)
| Raised (e : exn).
Arguments Returned {A} a.
Arguments Raised {A} e.

Definition rbind {A B} (r : result A) (k : A -> result B) : result B :=
  match r with
  | Returned a => k a
  | Raised e => Raised e
  end.

(** *** Decimal digits *)

Definition is_digit (c : N) : bool := (48 <=? c)%N && (c <=? 57)%N.

Definition digit_val (c : N) : Z := Z.of_N c - 48.

Definition digit_char (d : Z) : N := Z.to_N (48 + d).

(** [pad w n]: the [w] low decimal digits of [n], most significant first
    (the C format [%0wd] for [0 <= n < 10^w]). *)
Fixpoint pad (w : nat) (n : Z) : str :=
  match w with
  | O => []
  | S w' => pad w' (n / 10) ++ [digit_char (n mod 10)]
  end.

(** [take_digits w s]: reads exactly [w] ASCII digits off the front of [s]. *)
Fixpoint take_digits_acc (w : nat) (acc : Z) (s : str) : option (Z * str) :=
  match w with
  | O => Some (acc, s)
  | S w' =>
      match s with
      | c :: r => if is_digit c then take_digits_acc w' (10 * acc + digit_val c) r
                  else None
      | [] => None
      end
  end.

Definition take_digits (w : nat) (s : str) : option (Z * str) :=
  take_digits_acc w 0 s.

(** [str(n)] for an integer: Python prints the shortest decimal form. *)
Fixpoint uint_chars (u : Decimal.uint) : str :=
  match u with
  | Decimal.Nil => []
  | Decimal.D0 u => 48%N :: uint_chars u
  | Decimal.D1 u => 49%N :: uint_chars u
  | Decimal.D2 u => 50%N :: uint_chars u
  | Decimal.D3 u => 51%N :: uint_chars u
  | Decimal.D4 u => 52%N :: uint_chars u
  | Decimal.D5 u => 53%N :: uint_chars u
  | Decimal.D6 u => 54%N :: uint_chars u
  | Decimal.D7 u => 55%N :: uint_chars u
  | Decimal.D8 u => 56%N :: uint_chars u
  | Decimal.D9 u => 57%N :: uint_chars u
  end.

Definition str_of_N (n : N) : str := uint_chars (N.to_uint n).

Definition str_of_int (z : Z) : str :=
  if z <? 0 then 45%N :: str_of_N (Z.abs_N z) else str_of_N (Z.abs_N z).

End Py.
Import Py.

(** ** The [datetime] module, as far as the bot uses it *)

Module Datetime.

(** A naive [datetime.datetime]. *)
Record datetime := mkdt {
  year : Z; month : Z; day : Z;
  hour : Z; minute : Z; second : Z; microsecond : Z
}.

Definition is_leap (y : Z) : bool :=
  (y mod 4 =? 0) && (negb (y mod 100 =? 0) || (y mod 400 =? 0)).

Definition days_in_month (y m : Z) : Z :=
  if (m =? 2) && is_leap y then 29
  else nth (Z.to_nat m) [0; 31; 28; 31; 30; 31; 30; 31; 31; 30; 31; 30; 31] 0.

Definition days_before_year (y : Z) : Z :=
  let y' := y - 1 in y' * 365 + y' / 4 - y' / 100 + y' / 400.

Definition days_before_month (y m : Z) : Z :=
  nth (Z.to_nat m) [0; 0; 31; 59; 90; 120; 151; 181; 212; 243; 273; 304; 334] 0
  + (if (2 <? m) && is_leap y then 1 else 0).

Definition ymd2ord (y m d : Z) : Z :=
  days_before_year y + days_before_month y m + d.

Definition toordinal (t : datetime) : Z := ymd2ord (year t) (month t) (day t).

(** Monday is 0. *)
Definition weekday (t : datetime) : Z := (toordinal t + 6) mod 7.

(** The range checks of the [datetime] constructor. *)
Definition valid (t : datetime) : bool :=
  (1 <=? year t) && (year t <=? 9999) &&
  (1 <=? month t) && (month t <=? 12) &&
  (1 <=? day t) && (day t <=? days_in_month (year t) (month t)) &&
  (0 <=? hour t) && (hour t <=? 23) &&
  (0 <=? minute t) && (minute t <=? 59) &&
  (0 <=? second t) && (second t <=? 59) &&
  (0 <=? microsecond t) && (microsecond t <=? 999999).

(** [datetime(y, m, d, hh, mi, ss, us)]: raises [ValueError] out of range. *)
Definition make (y m d hh mi ss us : Z) : result datetime :=
  let t := mkdt y m d hh mi ss us in
  if valid t then Returned t else Raised ValueError.

(** A [timedelta] is kept as its exact length in microseconds; [days] is the
    normalised [.days] attribute, which rounds towards minus infinity. *)
Definition timedelta := Z.

Definition us_per_day : Z := 86400 * 1000000.

Definition timedelta_days (n : Z) : timedelta := n * us_per_day.

Definition days (delta : timedelta) : Z := delta / us_per_day.

(** Microseconds since the start of ordinal day 0. *)
Definition to_us (t : datetime) : Z :=
  toordinal t * us_per_day
  + (hour t * 3600 + minute t * 60 + second t) * 1000000
  + microsecond t.

(** [a - b] on naive datetimes. *)
Definition sub (a b : datetime) : timedelta := to_us a - to_us b.

(** [a >= b] on naive datetimes. *)
Definition geb (a b : datetime) : bool := to_us b <=? to_us a.

(** [t.isoformat()]. *)
Definition isoformat (t : datetime) : str :=
  pad 4 (year t) ++ lit "-" ++ pad 2 (month t) ++ lit "-" ++ pad 2 (day t)
  ++ lit "T" ++ pad 2 (hour t) ++ lit ":" ++ pad 2 (minute t) ++ lit ":"
  ++ pad 2 (second t)
  ++ (if microsecond t =? 0 then [] else lit "." ++ pad 6 (microsecond t)).

(** [datetime.fromisoformat(s)], for the naive spellings
    [YYYY-MM-DD[*HH[:MM[:SS[.fff[fff]]]]]] with ASCII digits, where [*] is any
    one character.  Every other text raises [ValueError] here. *)
Definition parse_fraction (s : str) : option Z :=
  match take_digits 6 s with
  | Some (us, []) => Some us
  | _ =>
      match take_digits 3 s with
      | Some (ms, []) => Some (ms * 1000)
      | _ => None
      end
  end.

Definition parse_time (s : str) : option (Z * Z * Z * Z) :=
  match take_digits 2 s with
  | Some (hh, []) => Some (hh, 0, 0, 0)
  | Some (hh, 58%N :: s1) =>
      match take_digits 2 s1 with
      | Some (mi, []) => Some (hh, mi, 0, 0)
      | Some (mi, 58%N :: s2) =>
          match take_digits 2 s2 with
          | Some (ss, []) => Some (hh, mi, ss, 0)
          | Some (ss, 46%N :: s3) =>
              match parse_fraction s3 with
              | Some us => Some (hh, mi, ss, us)
              | None => None
              end
          | _ => None
          end
      | _ => None
      end
  | _ => None
  end.

Definition parse_date (s : str) : option (Z * Z * Z * str) :=
  match take_digits 4 s with
  | Some (y, 45%N :: s1) =>
      match take_digits 2 s1 with
      | Some (m, 45%N :: s2) =>
          match take_digits 2 s2 with
          | Some (d, rest) => Some (y, m, d, rest)
          | None => None
          end
      | _ => None
      end
  | _ => None
  end.

Definition fromisoformat (s : str) : result datetime :=
  match parse_date s with
  | Some (y, m, d, []) => make y m d 0 0 0 0
  | Some (y, m, d, _sep :: t) =>
      match parse_time t with
      | Some (hh, mi, ss, us) => make y m d hh mi ss us
      | None => Raised ValueError
      end
  | None => Raised ValueError
  end.

End Datetime.

Module Strptime.
Import Datetime.

(** [datetime.strptime(text, "%Y-%m-%d %H:%M")].  CPython turns the format
    into the regular expression

      (?P<Y>\d\d\d\d)-(?P<m>1[0-2]|0[1-9]|[1-9])-
      (?P<d>3[01]|[12]\d|0[1-9]|[1-9]| [1-9])\s+
      (?P<H>2[0-3]|[0-1]\d|\d):(?P<M>[0-5]\d|\d)

    matches it at the start of the text, rejects text left over after the
    match, and builds the date, which checks the day against the month.  The
    matcher below is that backtracking search written with continuations: an
    alternative is tried only when everything after the earlier ones failed.
    [\d] is restricted to the ASCII digits. *)

Definition is_space (c : N) : bool :=
  ((9 <=? c) && (c <=? 13) || (28 <=? c) && (c <=? 32) || (c =? 133) || (c =? 160)
   || (c =? 5760) || (8192 <=? c) && (c <=? 8202) || (c =? 8232) || (c =? 8233)
   || (c =? 8239) || (c =? 8287) || (c =? 12288))%N.

Definition in_range (lo hi c : N) : bool := ((lo <=? c) && (c <=? hi))%N.

Definition orelse {A} (a b : option A) : option A :=
  match a with
  | Some x => Some x
  | None => b
  end.

(** One character of class [p1], its value handed to the continuation. *)
Definition one {A} (p1 : N -> bool) (s : str) (k : Z -> str -> option A) : option A :=
  match s with
  | c :: r => if p1 c then k (digit_val c) r else None
  | [] => None
  end.

(** Two characters of classes [p1] and [p2], read as a two-digit number. *)
Definition two {A} (p1 p2 : N -> bool) (s : str) (k : Z -> str -> option A) : option A :=
  match s with
  | c1 :: c2 :: r =>
      if p1 c1 && p2 c2 then k (10 * digit_val c1 + digit_val c2) r else None
  | _ => None
  end.

Definition sep {A} (c : N) (s : str) (k : str -> option A) : option A :=
  match s with
  | c' :: r => if (c' =? c)%N then k r else None
  | [] => None
  end.

(** [\s+], greedy, giving characters back one at a time. *)
Fixpoint spaces {A} (s : str) (k : str -> option A) : option A :=
  match s with
  | c :: r => if is_space c then orelse (spaces r k) (k r) else None
  | [] => None
  end.

Definition directive_Y {A} (s : str) (k : Z -> str -> option A) : option A :=
  match take_digits 4 s with
  | Some (y, r) => k y r
  | None => None
  end.

Definition directive_m {A} (s : str) (k : Z -> str -> option A) : option A :=
  orelse (two (N.eqb 49) (in_range 48 50) s k)
 (orelse (two (N.eqb 48) (in_range 49 57) s k)
         (one (in_range 49 57) s k)).

Definition directive_d {A} (s : str) (k : Z -> str -> option A) : option A :=
  orelse (two (N.eqb 51) (in_range 48 49) s k)
 (orelse (two (in_range 49 50) is_digit s k)
 (orelse (two (N.eqb 48) (in_range 49 57) s k)
 (orelse (one (in_range 49 57) s k)
         (sep 32 s (fun r => one (in_range 49 57) r k))))).

Definition directive_H {A} (s : str) (k : Z -> str -> option A) : option A :=
  orelse (two (N.eqb 50) (in_range 48 51) s k)
 (orelse (two (in_range 48 49) is_digit s k)
         (one is_digit s k)).

Definition directive_M {A} (s : str) (k : Z -> str -> option A) : option A :=
  orelse (two (in_range 48 53) is_digit s k)
         (one is_digit s k).

(** The first match of the whole pattern: the five fields and the text left. *)
Definition match_date_format (s : str) : option (Z * Z * Z * Z * Z * str) :=
  directive_Y s (fun y s =>
  sep 45 s (fun s =>
  directive_m s (fun m s =>
  sep 45 s (fun s =>
  directive_d s (fun d s =>
  spaces s (fun s =>
  directive_H s (fun hh s =>
  sep 58 s (fun s =>
  directive_M s (fun mi s =>
  Some (y, m, d, hh, mi, s)))))))))).

Definition strptime (text : str) : result datetime :=
  match match_date_format text with
  | Some (y, m, d, hh, mi, []) => make y m d hh mi 0 0
  | Some (_, _, _, _, _, _ :: _) => Raised ValueError
  | None => Raised ValueError
  end.

End Strptime.

Module Strftime.
Import Datetime.

Definition day_name (wd : Z) : str :=
  nth (Z.to_nat wd)
      (map lit ["Monday"; "Tuesday"; "Wednesday"; "Thursday"; "Friday";
                "Saturday"; "Sunday"]%string) [].

Definition month_name (m : Z) : str :=
  nth (Z.to_nat m)
      (map lit [""; "January"; "February"; "March"; "April"; "May"; "June";
                "July"; "August"; "September"; "October"; "November";
                "December"]%string) [].

(** [t.strftime("%Y-%m-%d %H:%M")], the year on four digits. *)
Definition strftime_date_format (t : datetime) : str :=
  pad 4 (year t) ++ lit "-" ++ pad 2 (month t) ++ lit "-" ++ pad 2 (day t)
  ++ lit " " ++ pad 2 (hour t) ++ lit ":" ++ pad 2 (minute t).

(** [t.strftime("%A, %B %d %Y at %H:%M")] in the C locale. *)
Definition strftime_long (t : datetime) : str :=
  day_name (weekday t) ++ lit ", " ++ month_name (month t) ++ lit " "
  ++ pad 2 (day t) ++ lit " " ++ pad 4 (year t) ++ lit " at "
  ++ pad 2 (hour t) ++ lit ":" ++ pad 2 (minute t).

End Strftime.

(** ** Python dictionaries

    A [dict] keeps its keys in insertion order, which [items()] and
    [json.dump] both follow, so it is an association list without repeated
    keys.  Assigning to a present key keeps the key's position. *)

Module Dict.

Definition dict (V : Type) := list (str * V).

Fixpoint get {V} (k : str) (d : dict V) : option V :=
  match d with
  | [] => None
  | (k', v) :: r => if str_eqb k k' then Some v else get k r
  end.

Definition mem {V} (k : str) (d : dict V) : bool :=
  match get k d with
  | Some _ => true
  | None => false
  end.

(** [d[k] = v] *)
Fixpoint set {V} (k : str) (v : V) (d : dict V) : dict V :=
  match d with
  | [] => [(k, v)]
  | (k', v') :: r => if str_eqb k k' then (k', v) :: r else (k', v') :: set k v r
  end.

(** [del d[k]], for a key that is present *)
Fixpoint del {V} (k : str) (d : dict V) : dict V :=
  match d with
  | [] => []
  | (k', v') :: r => if str_eqb k k' then r else (k', v') :: del k r
  end.

Definition keys {V} (d : dict V) : list str := map fst d.

(** [dict(pairs)]: later pairs overwrite earlier ones. *)
Definition of_pairs {V} (pairs : list (str * V)) : dict V :=
  fold_left (fun d kv => set (fst kv) (snd kv) d) pairs [].

End Dict.

(** ** The [json] module *)

Module Json.
Import Dict.

(** What [json.load] can return.  A float keeps the text of its literal. *)
#[local] Set Warnings "-register-all".
Inductive value :=
| JNull
| JBool (b : bool)
| JInt (z : Z)
| JFloat (literal : str)
| JStr (s : str)
| JArr (items : list value)
| JObj (members : dict value).

(** *** Encoder: [json.dumps(v)] with the default separators and
    [ensure_ascii=True] *)

Definition hex_char (n : N) : N := (if n <? 10 then 48 + n else 87 + n)%N.

(** ['{0:04x}'.format(n)] *)
Definition hex4 (n : N) : str :=
  [hex_char (N.land (N.shiftr n 12) 15); hex_char (N.land (N.shiftr n 8) 15);
   hex_char (N.land (N.shiftr n 4) 15); hex_char (N.land n 15)].

Definition escape_char (c : N) : str :=
  (if c =? 34 then [92; 34]
   else if c =? 92 then lit "\\"
   else if c =? 10 then lit "\n"
   else if c =? 13 then lit "\r"
   else if c =? 9 then lit "\t"
   else if c =? 12 then lit "\f"
   else if c =? 8 then lit "\b"
   else if (32 <=? c) && (c <=? 126) then [c]
   else if c <? 65536 then lit "\u" ++ hex4 c
   else
     let n := c - 65536 in
     lit "\u" ++ hex4 (N.lor 55296 (N.land (N.shiftr n 10) 1023))
     ++ lit "\u" ++ hex4 (N.lor 56320 (N.land n 1023)))%N.

Definition encode_string (s : str) : str :=
  34%N :: flat_map escape_char s ++ [34%N].

Fixpoint join_items (enc : value -> str) (items : list value) : str :=
  match items with
  | [] => []
  | [x] => enc x
  | x :: r => enc x ++ lit ", " ++ join_items enc r
  end.

Fixpoint join_members (enc : value -> str) (members : dict value) : str :=
  match members with
  | [] => []
  | [(k, x)] => encode_string k ++ lit ": " ++ enc x
  | (k, x) :: r => encode_string k ++ lit ": " ++ enc x ++ lit ", " ++ join_members enc r
  end.

Fixpoint dumps (v : value) : str :=
  match v with
  | JNull => lit "null"
  | JBool true => lit "true"
  | JBool false => lit "false"
  | JInt z => str_of_int z
  | JFloat literal => literal
  | JStr s => encode_string s
  | JArr items => lit "[" ++ join_items dumps items ++ lit "]"
  | JObj members => lit "{" ++ join_members dumps members ++ lit "}"
  end.

(** *** Decoder: [json.loads(text)]

    The scanner follows CPython's: [scanstring] for string bodies,
    the number grammar (an optional minus sign; a lone zero or a nonzero
    digit followed by digits; an optional fraction; an optional exponent),
    and one function per container.  Recursion is on a fuel counter; running
    out of it stands for Python's [RecursionError]. *)

Definition is_ws (c : N) : bool :=
  ((c =? 32) || (c =? 9) || (c =? 10) || (c =? 13))%N.

Fixpoint skip_ws (s : str) : str :=
  match s with
  | c :: r => if is_ws c then skip_ws r else s
  | [] => []
  end.

Fixpoint strip_prefix (p s : str) : option str :=
  match p, s with
  | [], _ => Some s
  | a :: p', b :: s' => if (a =? b)%N then strip_prefix p' s' else None
  | _ :: _, [] => None
  end.

Definition hex_val (c : N) : option N :=
  (if (48 <=? c) && (c <=? 57) then Some (c - 48)
   else if (97 <=? c) && (c <=? 102) then Some (c - 87)
   else if (65 <=? c) && (c <=? 70) then Some (c - 55)
   else None)%N.

Definition decode_hex4 (a b c d : N) : option N :=
  match hex_val a, hex_val b, hex_val c, hex_val d with
  | Some x, Some y, Some z, Some w => Some (((x * 16 + y) * 16 + z) * 16 + w)%N
  | _, _, _, _ => None
  end.

Definition backslash (e : N) : option N :=
  (if e =? 34 then Some 34
   else if e =? 92 then Some 92
   else if e =? 47 then Some 47
   else if e =? 98 then Some 8
   else if e =? 102 then Some 12
   else if e =? 110 then Some 10
   else if e =? 114 then Some 13
   else if e =? 116 then Some 9
   else None)%N.

Definition is_high_surrogate (c : N) : bool := ((55296 <=? c) && (c <=? 56319))%N.
Definition is_low_surrogate (c : N) : bool := ((56320 <=? c) && (c <=? 57343))%N.

Definition join_surrogates (hi lo : N) : N :=
  (65536 + N.lor (N.shiftl (hi - 55296) 10) (lo - 56320))%N.

Definition push (c : N) (o : option (str * str)) : option (str * str) :=
  match o with
  | Some (body, rest) => Some (c :: body, rest)
  | None => None
  end.

(** [scanstring s]: [s] starts just after the opening quote; the result is
    the decoded body and the text after the closing quote. *)
Fixpoint scanstring (s : str) : option (str * str) :=
  match s with
  | [] => None
  | c :: r =>
      if (c =? 34)%N then Some ([], r)
      else if (c =? 92)%N then
        match r with
        | [] => None
        | e :: r1 =>
            if (e =? 117)%N then
              match r1 with
              | h1 :: h2 :: h3 :: h4 :: r2 =>
                  match decode_hex4 h1 h2 h3 h4 with
                  | None => None
                  | Some uni =>
                      if is_high_surrogate uni then
                        match r2 with
                        | b :: u :: l1 :: l2 :: l3 :: l4 :: r3 =>
                            if ((b =? 92) && (u =? 117))%N then
                              match decode_hex4 l1 l2 l3 l4 with
                              | None => None
                              | Some uni2 =>
                                  if is_low_surrogate uni2
                                  then push (join_surrogates uni uni2) (scanstring r3)
                                  else push uni (scanstring r2)
                              end
                            else push uni (scanstring r2)
                        | _ => push uni (scanstring r2)
                        end
                      else push uni (scanstring r2)
                  end
              | _ => None
              end
            else
              match backslash e with
              | Some ch => push ch (scanstring r1)
              | None => None
              end
        end
      else if (c <? 32)%N then None
      else push c (scanstring r)
  end.

Fixpoint span_digits (s : str) : str * str :=
  match s with
  | c :: r =>
      if is_digit c then let (ds, rest) := span_digits r in (c :: ds, rest)
      else ([], s)
  | [] => ([], [])
  end.

Definition digit_cons (c : N) (u : Decimal.uint) : Decimal.uint :=
  match (c - 48)%N with
  | 0%N => Decimal.D0 u | 1%N => Decimal.D1 u | 2%N => Decimal.D2 u
  | 3%N => Decimal.D3 u | 4%N => Decimal.D4 u | 5%N => Decimal.D5 u
  | 6%N => Decimal.D6 u | 7%N => Decimal.D7 u | 8%N => Decimal.D8 u
  | _ => Decimal.D9 u
  end.

Definition uint_of_chars (ds : str) : Decimal.uint :=
  fold_right digit_cons Decimal.Nil ds.

Definition int_of_chars (negative : bool) (ds : str) : Z :=
  let n := Z.of_N (N.of_uint (uint_of_chars ds)) in
  if negative then - n else n.

(** The integer part: a lone [0], or a nonzero digit and all digits after it. *)
Definition scan_int_part (s : str) : option (str * str) :=
  match s with
  | c :: r =>
      if (c =? 48)%N then Some ([c], r)
      else if is_digit c then Some (span_digits s)
      else None
  | [] => None
  end.

(** [.digits], only when a digit follows the point. *)
Definition scan_frac_part (s : str) : str * str :=
  match s with
  | p :: d :: _ =>
      if ((p =? 46)%N && is_digit d)%bool
      then let (ds, rest) := span_digits (tl s) in (p :: ds, rest)
      else ([], s)
  | _ => ([], s)
  end.

(** [e], an optional sign and digits; without a digit nothing is taken. *)
Definition scan_exp_part (s : str) : str * str :=
  match s with
  | e :: r =>
      if ((e =? 101) || (e =? 69))%N then
        match r with
        | sg :: r' =>
            if ((sg =? 45) || (sg =? 43))%N then
              match span_digits r' with
              | ([], _) => ([], s)
              | (ds, rest) => (e :: sg :: ds, rest)
              end
            else
              match span_digits r with
              | ([], _) => ([], s)
              | (ds, rest) => (e :: ds, rest)
              end
        | [] => ([], s)
        end
      else ([], s)
  | [] => ([], s)
  end.

Definition match_number (s : str) : option (value * str) :=
  let (negative, s0) :=
    match s with
    | c :: r => if (c =? 45)%N then (true, r) else (false, s)
    | [] => (false, s)
    end in
  match scan_int_part s0 with
  | None => None
  | Some (ds, s1) =>
      let (frac, s2) := scan_frac_part s1 in
      let (ex, s3) := scan_exp_part s2 in
      match frac, ex with
      | [], [] => Some (JInt (int_of_chars negative ds), s3)
      | _, _ => Some (JFloat ((if negative then [45%N] else []) ++ ds ++ frac ++ ex), s3)
      end
  end.

Inductive scan (A : Type) :=
| Done (a : A) (rest : str)
| Invalid
| Exhausted.
Arguments Done {A} a rest.
Arguments Invalid {A}.
Arguments Exhausted {A}.

Definition of_option {A} (o : option (A * str)) : scan A :=
  match o with
  | Some (a, rest) => Done a rest
  | None => Invalid
  end.

(** Sequencing: a failure of the first scan is the failure of the whole. *)
Definition scan_bind {A B} (x : scan A) (k : A -> str -> scan B) : scan B :=
  match x with
  | Done a rest => k a rest
  | Invalid => Invalid
  | Exhausted => Exhausted
  end.

Definition scan_literal (s : str) : scan value :=
  match strip_prefix (lit "null") s with
  | Some r => Done JNull r
  | None =>
  match strip_prefix (lit "true") s with
  | Some r => Done (JBool true) r
  | None =>
  match strip_prefix (lit "false") s with
  | Some r => Done (JBool false) r
  | None =>
  match strip_prefix (lit "NaN") s with
  | Some r => Done (JFloat (lit "NaN")) r
  | None =>
  match strip_prefix (lit "Infinity") s with
  | Some r => Done (JFloat (lit "Infinity")) r
  | None =>
  match strip_prefix (lit "-Infinity") s with
  | Some r => Done (JFloat (lit "-Infinity")) r
  | None => of_option (match_number s)
  end end end end end end.

(** After an item: the closing bracket, or a comma and the next items. *)
Definition after_item (more : str -> scan (list value)) (v : value) (rest : str)
  : scan (list value) :=
  match skip_ws rest with
  | [] => Invalid
  | c :: r =>
      if (c =? 93)%N then Done [v] r
      else if (c =? 44)%N then
        scan_bind (more (skip_ws r)) (fun items rest' => Done (v :: items) rest')
      else Invalid
  end.

(** After a member: the closing brace, or a comma and the next members. *)
Definition after_member (more : str -> scan (list (str * value)))
    (key : str) (v : value) (rest : str) : scan (list (str * value)) :=
  match skip_ws rest with
  | [] => Invalid
  | c :: r =>
      if (c =? 125)%N then Done [(key, v)] r
      else if (c =? 44)%N then
        scan_bind (more (skip_ws r)) (fun pairs rest' => Done ((key, v) :: pairs) rest')
      else Invalid
  end.

(** A key and the colon after it; [s] starts at the quote that opens the key. *)
Definition scan_key (s : str) : scan str :=
  match s with
  | [] => Invalid
  | q :: r =>
      if (q =? 34)%N then
        scan_bind (of_option (scanstring r)) (fun key rest =>
        match skip_ws rest with
        | [] => Invalid
        | c :: r1 => if (c =? 58)%N then Done key (skip_ws r1) else Invalid
        end)
      else Invalid
  end.

Fixpoint scan_once (fuel : nat) (s : str) {struct fuel} : scan value :=
  match fuel with
  | O => Exhausted
  | S fuel' =>
      match s with
      | [] => Invalid
      | c :: r =>
          if (c =? 34)%N then
            scan_bind (of_option (scanstring r)) (fun body rest => Done (JStr body) rest)
          else if (c =? 123)%N then
            match skip_ws r with
            | [] => Invalid
            | c' :: r' =>
                if (c' =? 125)%N then Done (JObj []) r'
                else scan_bind (scan_members fuel' (c' :: r'))
                       (fun pairs rest => Done (JObj (of_pairs pairs)) rest)
            end
          else if (c =? 91)%N then
            match skip_ws r with
            | [] => Invalid
            | c' :: r' =>
                if (c' =? 93)%N then Done (JArr []) r'
                else scan_bind (scan_items fuel' (c' :: r'))
                       (fun items rest => Done (JArr items) rest)
            end
          else scan_literal s
      end
  end

(** The items of an array, [s] at the first character of an item. *)
with scan_items (fuel : nat) (s : str) {struct fuel} : scan (list value) :=
  match fuel with
  | O => Exhausted
  | S fuel' => scan_bind (scan_once fuel' s) (after_item (scan_items fuel'))
  end

(** The members of an object, [s] at the quote that opens a key. *)
with scan_members (fuel : nat) (s : str) {struct fuel} : scan (list (str * value)) :=
  match fuel with
  | O => Exhausted
  | S fuel' =>
      scan_bind (scan_key s) (fun key rest =>
      scan_bind (scan_once fuel' rest) (after_member (scan_members fuel') key))
  end.

(** Two units of fuel per character are enough for every text. *)
Definition fuel_for (s : str) : nat := 2 * List.length s + 2.

(** [json.loads]: leading and trailing white space allowed, nothing else
    around the value; a leading byte order mark is refused. *)
Definition starts_with_bom (s : str) : bool :=
  match s with
  | c :: _ => (c =? 65279)%N
  | [] => false
  end.

Definition loads (s : str) : result value :=
  if starts_with_bom s then Raised JSONDecodeError
  else
    match scan_once (fuel_for s) (skip_ws s) with
    | Done v rest =>
        match skip_ws rest with
        | [] => Returned v
        | _ :: _ => Raised JSONDecodeError
        end
    | Invalid => Raised JSONDecodeError
    | Exhausted => Raised RecursionError
    end.

End Json.

(** ** Python operations on decoded values *)

Module Obj.
Import Dict Json.

(** [a == b] when [a] is a string: only an equal string compares equal. *)
Definition str_value_eqb (a : str) (b : value) : bool :=
  match b with
  | JStr y => str_eqb a y
  | _ => false
  end.

Fixpoint is_prefix (p s : str) : bool :=
  match p, s with
  | [], _ => true
  | a :: p', b :: s' => (a =? b)%N && is_prefix p' s'
  | _ :: _, [] => false
  end.

Fixpoint is_substring (p s : str) : bool :=
  is_prefix p s ||
  match s with
  | [] => false
  | _ :: s' => is_substring p s'
  end.

Definition all_zero (s : str) : bool :=
  forallb (fun c => negb (is_digit c) || (c =? 48)%N) s.

(** The mantissa of a float literal: the text before its exponent. *)
Fixpoint mantissa (s : str) : str :=
  match s with
  | [] => []
  | c :: r => if ((c =? 101) || (c =? 69))%N then [] else c :: mantissa r
  end.

(** [bool(v)]: empty containers, zero, [None] and [False] are false.  A float
    counts as zero when its mantissa has no nonzero digit. *)
Definition truthy (v : value) : bool :=
  match v with
  | JNull => false
  | JBool b => b
  | JInt z => negb (z =? 0)
  | JFloat l => negb (existsb is_digit l && all_zero (mantissa l))
  | JStr s => negb (Nat.eqb (List.length s) 0)
  | JArr l => negb (Nat.eqb (List.length l) 0)
  | JObj d => negb (Nat.eqb (List.length d) 0)
  end.

(** [name in v] for a string [name] *)
Definition contains (name : str) (v : value) : result bool :=
  match v with
  | JObj d => Returned (mem name d)
  | JArr l => Returned (existsb (str_value_eqb name) l)
  | JStr s => Returned (is_substring name s)
  | _ => Raised TypeError
  end.

(** [v[name] = x] for a string [name] *)
Definition setitem (v : value) (name : str) (x : value) : result value :=
  match v with
  | JObj d => Returned (JObj (set name x d))
  | _ => Raised TypeError
  end.

(** [del v[name]] for a string [name] *)
Definition delitem (v : value) (name : str) : result value :=
  match v with
  | JObj d => if mem name d then Returned (JObj (del name d)) else Raised KeyError
  | _ => Raised TypeError
  end.

(** [v[name]] for a string [name] *)
Definition getitem (v : value) (name : str) : result value :=
  match v with
  | JObj d =>
      match get name d with
      | Some x => Returned x
      | None => Raised KeyError
      end
  | _ => Raised TypeError
  end.

(** [v.items()] *)
Definition items (v : value) : result (list (str * value)) :=
  match v with
  | JObj d => Returned d
  | _ => Raised AttributeError
  end.

(** [l[:limit]]: a negative bound counts from the end of the list. *)
Definition slice_to {A} (limit : Z) (l : list A) : list A :=
  if limit <? 0
  then firstn (Z.to_nat (Z.max 0 (Z.of_nat (List.length l) + limit))) l
  else firstn (Z.to_nat limit) l.

(** [l.sort(key=key)] is stable, so its result is the one stable arrangement
    of [l] in ascending key order; insertion from the right computes it. *)
Fixpoint insert_by {A} (key : A -> Z) (x : A) (l : list A) : list A :=
  match l with
  | [] => [x]
  | y :: r => if key x <=? key y then x :: y :: r else y :: insert_by key x r
  end.

Fixpoint sort_by {A} (key : A -> Z) (l : list A) : list A :=
  match l with
  | [] => []
  | x :: r => insert_by key x (sort_by key r)
  end.

End Obj.

(** ** [bot.py] *)

Module Bot.
Import Datetime Strptime Strftime Dict Json Obj.

Definition MAX_ASSIGNMENTS_DISPLAY : Z := 10.

Inductive TimeFormat := SHORT | LONG | RELATIVE.

(** The part of the file system the bot touches: the directory [data] and
    the text of [data/assignments.json], if the file exists. *)
Record filesystem := mkfs {
  data_dir : bool;
  assignments_file : option str
}.

(** A computation that reads and writes the file system and may raise. *)
Definition io (A : Type) := filesystem -> result A * filesystem.

Definition ret {A} (a : A) : io A := fun fs => (Returned a, fs).

Definition raise {A} (e : exn) : io A := fun fs => (Raised e, fs).

Definition bind {A B} (m : io A) (k : A -> io B) : io B :=
  fun fs =>
    match m fs with
    | (Returned a, fs') => k a fs'
    | (Raised e, fs') => (Raised e, fs')
    end.

Definition lift {A} (r : result A) : io A := fun fs => (r, fs).

(** [try: body  except cls: handler], [cls] given by its membership test. *)
Definition try_except {A} (body : io A) (cls : exn -> bool) (handler : io A) : io A :=
  fun fs =>
    match body fs with
    | (Returned a, fs') => (Returned a, fs')
    | (Raised e, fs') => if cls e then handler fs' else (Raised e, fs')
    end.

Notation "x <- m ;; k" := (bind m (fun x => k))
  (at level 61, m at next level, right associativity).
Notation "m ;;; k" := (bind m (fun _ => k))
  (at level 61, right associativity).

Module AssignmentManager.

Definition ensure_data_dir : io unit :=
  fun fs => (Returned tt, mkfs true (assignments_file fs)).

Definition load_assignments : io value :=
  ensure_data_dir ;;;
  fun fs =>
    match assignments_file fs with
    | Some text =>
        try_except (lift (loads text))
                   (fun e => match e with JSONDecodeError => true | _ => false end)
                   (ret (JObj [])) fs
    | None => ret (JObj []) fs
    end.

Definition save_assignments (data : value) : io unit :=
  ensure_data_dir ;;;
  fun fs => (Returned tt, mkfs (data_dir fs) (Some (dumps data))).

Definition format_deadline (deadline_str : str) (style : TimeFormat)
    (now : datetime) : result str :=
  rbind (fromisoformat deadline_str) (fun deadline =>
  match style with
  | SHORT => Returned (strftime_date_format deadline)
  | LONG => Returned (strftime_long deadline)
  | RELATIVE =>
      let delta := sub deadline now in
      if delta <? timedelta_days 0 then
        Returned (str_of_int (Z.abs (days delta)) ++ lit " days ago")
      else if delta <? timedelta_days 1 then Returned (lit "Today")
      else if delta <? timedelta_days 2 then Returned (lit "Tomorrow")
      else Returned (lit "In " ++ str_of_int (days delta) ++ lit " days")
  end).

End AssignmentManager.
Import AssignmentManager.

(** What a command sends back through [interaction.response.send_message]:
    which embed, and the data shown in it. *)
Inductive response :=
| AssignmentAdded (name : str) (due_date : str) (details : option str) (stars : nat)
| InvalidDateFormat
| NoAssignments
| NoUpcomingAssignments
| YourAssignments (shown : list (str * value))
| AssignmentRemoved (name : str)
| AssignmentNotFound (name : str).

(** The dictionary literal of [add_assignment]. *)
Definition new_record (deadline_date : datetime) (details : option str)
    (priority : Z) (user_id : Z) (now : datetime) : value :=
  JObj [ (lit "deadline", JStr (isoformat deadline_date));
         (lit "details", JStr (match details with Some d => d | None => [] end));
         (lit "priority", JInt (Z.min (Z.max 1 priority) 5));
         (lit "added_by", JInt user_id);
         (lit "added_at", JStr (isoformat now)) ].

(** [/assignment_add].  [now] is what [datetime.now()] reads and [user_id]
    is [interaction.user.id]. *)
Definition add_assignment (now : datetime) (user_id : Z)
    (name deadline : str) (details : option str) (priority : Z) : io response :=
  try_except
    (deadline_date <- lift (strptime deadline) ;;
     assignments <- load_assignments ;;
     assignments <- lift (setitem assignments name
                            (new_record deadline_date details priority user_id now)) ;;
     save_assignments assignments ;;;
     due <- lift (format_deadline (isoformat deadline_date) LONG now) ;;
     ret (AssignmentAdded name due
            (match details with
             | Some (c :: d) => Some (c :: d)
             | _ => None
             end)
            (Z.to_nat priority)))
    is_ValueError
    (ret InvalidDateFormat).

(** [datetime.fromisoformat(data["deadline"])] *)
Definition entry_deadline (data : value) : result datetime :=
  rbind (getitem data (lit "deadline")) (fun d =>
  match d with
  | JStr text => fromisoformat text
  | _ => Raised TypeError
  end).

(** The triples [(name, data, deadline)] the listing works on. *)
Definition entry : Type := str * value * datetime.

(** The loop of [list_assignments] that splits the entries by deadline. *)
Fixpoint partition_entries (now : datetime) (entries : list (str * value))
    (upcoming past : list entry) : result (list entry * list entry) :=
  match entries with
  | [] => Returned (upcoming, past)
  | (name, data) :: rest =>
      rbind (entry_deadline data) (fun deadline =>
      if geb deadline now
      then partition_entries now rest (upcoming ++ [(name, data, deadline)]) past
      else partition_entries now rest upcoming (past ++ [(name, data, deadline)]))
  end.

Definition by_deadline (x : entry) : Z := to_us (snd x).

(** [/assignment_list].  The embed gets one field per shown entry, in order;
    its text, [format_assignment(name, data)], reads [data["deadline"]] again,
    which the loop above has already parsed. *)
Definition list_assignments (now : datetime) (show_all : bool) (limit : Z)
  : io response :=
  assignments <- load_assignments ;;
  if negb (truthy assignments) then ret NoAssignments
  else
    entries <- lift (items assignments) ;;
    parts <- lift (partition_entries now entries [] []) ;;
    let upcoming := sort_by by_deadline (fst parts) in
    let past := sort_by by_deadline (snd parts) in
    let assignments_to_show := upcoming ++ (if show_all then past else []) in
    match assignments_to_show with
    | [] => ret NoUpcomingAssignments
    | _ :: _ =>
        let assignments_to_show := slice_to limit assignments_to_show in
        ret (YourAssignments (map fst assignments_to_show))
    end.

(** [/assignment_remove] *)
Definition remove_assignment (name : str) : io response :=
  assignments <- load_assignments ;;
  present <- lift (contains name assignments) ;;
  if (present : bool) then
    assignments <- lift (delitem assignments name) ;;
    save_assignments assignments ;;;
    ret (AssignmentRemoved name)
  else ret (AssignmentNotFound name).

End Bot.

(** ** [bot-code.py]: the prefix-command variant

    Its assignments live in one global dictionary for the life of the
    process; each entry keeps the deadline as a [datetime] and the details as
    text.  A command takes the dictionary, sends one message (or raises) and
    leaves the dictionary for the next command. *)

Module BotCode.
Import Datetime Strptime Dict.

Record info := mkinfo {
  deadline : datetime;
  details : str
}.

Definition assignments := dict info.

(** [str(t)] for a datetime: [isoformat] with a space between date and time. *)
Definition datetime_str (t : datetime) : str :=
  pad 4 (year t) ++ lit "-" ++ pad 2 (month t) ++ lit "-" ++ pad 2 (day t)
  ++ lit " " ++ pad 2 (hour t) ++ lit ":" ++ pad 2 (minute t) ++ lit ":"
  ++ pad 2 (second t)
  ++ (if microsecond t =? 0 then [] else lit "." ++ pad 6 (microsecond t)).

(** [" ".join(words)] *)
Fixpoint join_words (words : list str) : str :=
  match words with
  | [] => []
  | [w] => w
  | w :: rest => w ++ lit " " ++ join_words rest
  end.

(** [!add_assignment name deadline details...] *)
Definition add_assignment (assignment_name deadline : str) (words : list str)
    (store : assignments) : result str * assignments :=
  match strptime deadline with
  | Raised e => (Raised e, store)
  | Returned deadline_date =>
      let text := join_words words in
      (Returned (lit "Assignment '" ++ assignment_name
                 ++ lit "' added with a deadline on " ++ datetime_str deadline_date
                 ++ lit "." ++ [10%N] ++ lit "Details: " ++ text),
       set assignment_name (mkinfo deadline_date text) store)
  end.

Definition show_line (entry : str * info) : str :=
  lit "**" ++ fst entry ++ lit "** - Deadline: " ++ datetime_str (deadline (snd entry))
  ++ lit " | Details: " ++ details (snd entry) ++ [10%N].

(** [!show_assignments] *)
Definition show_assignments (store : assignments) : result str * assignments :=
  match store with
  | [] => (Returned (lit "No assignments added yet."), store)
  | _ :: _ =>
      (Returned (fold_left (fun response entry => response ++ show_line entry) store
                   (lit "Here are your assignments:" ++ [10%N])),
       store)
  end.

(** [!remove_assignment name] *)
Definition remove_assignment (assignment_name : str) (store : assignments)
  : result str * assignments :=
  if mem assignment_name store
  then (Returned (lit "Assignment '" ++ assignment_name ++ lit "' has been removed."),
        del assignment_name store)
  else (Returned (lit "Assignment '" ++ assignment_name ++ lit "' not found."), store).

End BotCode.

(** ** Notions the statements use *)

Module Spec.
Import Datetime Dict Json Obj Bot Bot.AssignmentManager.

(** [n] is the number of whole days in [delta]: its floor in days. *)
Definition whole_days (delta n : Z) : Prop :=
  n * us_per_day <= delta < (n + 1) * us_per_day.

Definition clock_2024_06_01_noon : datetime := mkdt 2024 6 1 12 0 0 0.

(** A store built by three [/assignment_add] commands on a fresh directory:
    "essay" due 2024-06-10, "quiz" due 2024-05-20, "lab" due 2024-06-03. *)
Definition sample_store : filesystem :=
  let run (name deadline : str) (details : option str) (priority : Z) fs :=
    snd (add_assignment clock_2024_06_01_noon 42 name deadline details priority fs) in
  run (lit "lab") (lit "2024-06-03 08:30") None 4
    (run (lit "quiz") (lit "2024-05-20 09:00") None 0
       (run (lit "essay") (lit "2024-06-10 12:00") (Some (lit "first draft")) 9
          (mkfs false None))).

(** The mapping [load_assignments] reads from it. *)
Definition sample_mapping : dict value :=
  match fst (load_assignments sample_store) with
  | Returned (JObj d) => d
  | _ => []
  end.

(** Text made of Unicode scalar values: code points below U+110000 that are
    not surrogates.  Text that reaches Python as UTF-8 is of this kind. *)
Definition is_scalar (c : N) : bool :=
  ((c <? 55296) || ((57343 <? c) && (c <? 1114112)))%N.

Definition text_ok (s : str) : bool := forallb is_scalar s.

(** What may follow a value in the encoder's output. *)
Definition delimited (rest : str) : Prop :=
  match rest with
  | [] => True
  | c :: _ => c = 44%N \/ c = 93%N \/ c = 125%N
  end.

Fixpoint nodup_keys (ks : list str) : bool :=
  match ks with
  | [] => true
  | k :: r => negb (existsb (str_eqb k) r) && nodup_keys r
  end.

(** The values [json.dump] writes and [json.load] reads back unchanged: no
    floats, text made of scalar values, no repeated key in an object. *)
Fixpoint storable (v : value) : bool :=
  match v with
  | JNull | JBool _ | JInt _ => true
  | JFloat _ => false
  | JStr s => text_ok s
  | JArr items => forallb storable items
  | JObj members =>
      forallb (fun kv => text_ok (fst kv) && storable (snd kv)) members
      && nodup_keys (keys members)
  end.

(** The entries of a mapping with their deadlines read, in the order of the
    mapping; an entry without a readable deadline is left out. *)
Definition dated (d : dict value) : list entry :=
  flat_map (fun kv => match entry_deadline (snd kv) with
                      | Returned t => [(fst kv, snd kv, t)]
                      | Raised _ => []
                      end) d.

Definition is_upcoming (now : datetime) (e : entry) : bool := geb (snd e) now.

Definition is_past (now : datetime) (e : entry) : bool := negb (geb (snd e) now).

(** Every entry carries a readable deadline. *)
Definition all_dated (d : dict value) : Prop :=
  forall name data, In (name, data) d -> exists t, entry_deadline data = Returned t.

(** A store in good order: the backing file loads as a mapping that
    [json.dump] writes back unchanged and whose entries all carry a readable
    deadline. *)
Definition store_in_order (fs : filesystem) : Prop :=
  exists d, fst (load_assignments fs) = Returned (JObj d)
            /\ storable (JObj d) = true /\ all_dated d.

Fixpoint float_free (v : value) : bool :=
  match v with
  | JFloat _ => false
  | JArr items => forallb float_free items
  | JObj members => forallb (fun kv => float_free (snd kv)) members
  | _ => true
  end.

(** The printable ASCII characters. *)
Definition printable (c : N) : bool := ((32 <=? c) && (c <=? 126))%N.

Definition consumes {A} (scanner : str -> scan A) : Prop :=
  forall s a rest, scanner s = Done a rest -> (List.length rest < List.length s)%nat.

(** A scan that gives the expected result whenever it does not run out of
    fuel. *)
Definition scans_to {A} (x : scan A) (a : A) (rest : str) : Prop :=
  x = Done a rest \/ x = Exhausted.

Definition round_trips (v : value) : Prop :=
  storable v = true ->
  forall fuel rest, delimited rest ->
    scans_to (scan_once fuel (dumps v ++ rest)) v rest.

(** An encoded value starts with a character that is neither white space nor
    a closing bracket. *)
Definition opens_value (s : str) : Prop :=
  exists c r, s = c :: r /\ is_ws c = false /\ c <> 93%N /\ c <> 125%N.

Definition details_ok (details : option str) : bool :=
  match details with
  | Some text => text_ok text
  | None => true
  end.

Definition to_show (now : datetime) (show_all : bool) (d : dict value) : list entry :=
  sort_by by_deadline (filter (is_upcoming now) (dated d))
  ++ (if show_all then sort_by by_deadline (filter (is_past now) (dated d)) else []).

Definition store_with_tie : filesystem :=
  let run (name deadline : str) fs :=
    snd (add_assignment clock_2024_06_01_noon 42 name deadline None 3 fs) in
  run (lit "c") (lit "2024-06-03 08:30")
    (run (lit "b") (lit "2024-06-10 12:00")
       (run (lit "a") (lit "2024-06-10 12:00") (mkfs false None))).

Definition tie_mapping : dict value :=
  match fst (load_assignments store_with_tie) with
  | Returned (JObj d) => d
  | _ => []
  end.

Definition file_with_repeated_key : str :=
  dumps (JObj [(lit "essay", JInt 1); (lit "quiz", JInt 2); (lit "essay", JInt 3)]).

Definition botcode_sample : BotCode.assignments :=
  snd (BotCode.add_assignment (lit "essay") (lit "2024-06-10 12:00")
         [lit "first"; lit "draft"] []).

End Spec.

(** * Properties *)

Import Datetime Strptime Strftime Dict Json Obj Bot Bot.AssignmentManager Spec.

(** ** Text and digits *)

Lemma str_eqb_eq (a b : str) : str_eqb a b = true <-> a = b.
Proof.
  revert b; induction a as [|x a IH]; intros [|y b]; simpl; split; try easy.
  - rewrite andb_true_iff, N.eqb_eq, IH. now intros [-> ->].
  - intros [= -> ->]. rewrite N.eqb_refl. now apply IH.
Qed.

Lemma str_eqb_refl (a : str) : str_eqb a a = true.
Proof. now apply str_eqb_eq. Qed.

Lemma str_eqb_neq (a b : str) : str_eqb a b = false <-> a <> b.
Proof.
  rewrite <- str_eqb_eq. destruct (str_eqb a b); split; congruence.
Qed.

Lemma is_digit_digit_char (d : Z) : 0 <= d < 10 -> is_digit (digit_char d) = true.
Proof.
  intros H. unfold is_digit, digit_char.
  apply andb_true_iff; split; apply N.leb_le; lia.
Qed.

Lemma digit_val_digit_char (d : Z) : 0 <= d < 10 -> digit_val (digit_char d) = d.
Proof. intros H. unfold digit_val, digit_char. lia. Qed.

(** Reading one more digit is reading the shorter run and then one digit. *)
Lemma take_digits_acc_last (w : nat) : forall acc s,
  take_digits_acc (S w) acc s =
  match take_digits_acc w acc s with
  | Some (a, c :: r) => if is_digit c then Some (10 * a + digit_val c, r) else None
  | _ => None
  end.
Proof.
  induction w as [|w IH]; intros acc s.
  - simpl. destruct s as [|c r]; [reflexivity|]. now destruct (is_digit c).
  - change (take_digits_acc (S (S w)) acc s)
      with (match s with
            | c :: r => if is_digit c
                        then take_digits_acc (S w) (10 * acc + digit_val c) r
                        else None
            | [] => None
            end).
    destruct s as [|c r]; [reflexivity|]. simpl (take_digits_acc (S w) acc (c :: r)).
    destruct (is_digit c); [|reflexivity]. apply IH.
Qed.

Lemma take_digits_acc_pad (w : nat) : forall n acc rest,
  0 <= n < 10 ^ Z.of_nat w ->
  take_digits_acc w acc (pad w n ++ rest) = Some (acc * 10 ^ Z.of_nat w + n, rest).
Proof.
  induction w as [|w IH]; intros n acc rest Hn.
  - simpl in *. f_equal. f_equal. lia.
  - rewrite take_digits_acc_last. simpl pad. rewrite <- app_assoc. cbn [app].
    rewrite Nat2Z.inj_succ, Z.pow_succ_r in * by lia.
    rewrite IH by (split; [apply Z.div_pos; lia | apply Z.div_lt_upper_bound; lia]).
    pose proof (Z.mod_pos_bound n 10 ltac:(lia)) as Hm.
    change ([digit_char (n mod 10)] ++ rest) with (digit_char (n mod 10) :: rest).
    cbv beta iota.
    rewrite is_digit_digit_char, digit_val_digit_char by lia.
    f_equal. f_equal. pose proof (Z.div_mod n 10 ltac:(lia)). lia.
Qed.

Lemma take_digits_pad (w : nat) (n : Z) (rest : str) :
  0 <= n < 10 ^ Z.of_nat w ->
  take_digits w (pad w n ++ rest) = Some (n, rest).
Proof.
  intros H. unfold take_digits. rewrite take_digits_acc_pad by assumption.
  f_equal.
Qed.

(** Replaces every literal by its code points. *)
Ltac unlit :=
  repeat match goal with
         | |- context [lit ?s] =>
             let v := eval vm_compute in (lit s) in change (lit s) with v
         end.

(** ** Dates *)

Lemma days_in_month_le_31 (y m : Z) : days_in_month y m <= 31.
Proof.
  unfold days_in_month. destruct ((m =? 2) && is_leap y); [lia|].
  destruct (Z.to_nat m) as [|[|[|[|[|[|[|[|[|[|[|[|[|k]]]]]]]]]]]]]; simpl; try lia.
  destruct k; simpl; lia.
Qed.

Lemma valid_bounds (t : datetime) :
  valid t = true ->
  1 <= year t <= 9999 /\ 1 <= month t <= 12 /\
  1 <= day t <= days_in_month (year t) (month t) /\
  0 <= hour t <= 23 /\ 0 <= minute t <= 59 /\ 0 <= second t <= 59 /\
  0 <= microsecond t <= 999999.
Proof.
  unfold valid. rewrite !andb_true_iff, !Z.leb_le. tauto.
Qed.

Lemma make_fields (t : datetime) :
  valid t = true ->
  make (year t) (month t) (day t) (hour t) (minute t) (second t) (microsecond t)
  = Returned t.
Proof.
  destruct t as [y m d hh mi ss us]. unfold make.
  cbn [year month day hour minute second microsecond].
  now intros ->.
Qed.

(** [isoformat] loses nothing: [fromisoformat] reads back the same datetime. *)
Lemma fromisoformat_isoformat (t : datetime) :
  valid t = true -> fromisoformat (isoformat t) = Returned t.
Proof.
  intros Hv. pose proof (valid_bounds t Hv) as (Hy & Hm & Hd & Hh & Hmi & Hs & Hus).
  pose proof (days_in_month_le_31 (year t) (month t)) as Hdm.
  unfold fromisoformat, isoformat, parse_date, parse_time. unlit.
  repeat (rewrite take_digits_pad by (simpl; lia); cbn [app]; cbv beta iota).
  destruct (Z.eqb_spec (microsecond t) 0) as [E|E].
  - rewrite <- (make_fields t Hv). now rewrite E.
  - cbn [app]. cbv beta iota. unfold parse_fraction.
    rewrite <- (app_nil_r (pad 6 _)), take_digits_pad by (simpl; lia).
    now apply make_fields.
Qed.

Lemma whole_days_days (delta n : Z) : whole_days delta n -> days delta = n.
Proof.
  unfold whole_days, days, us_per_day. intros H.
  symmetry. apply (Z.div_unique delta _ n (delta - n * (86400 * 1000000))); lia.
Qed.

(** ** Relative deadlines *)

(** C1.  [format_deadline] with the [RELATIVE] style, for a deadline stored by
    [isoformat] and any clock reading [now].  With [delta] the exact time from
    [now] to the deadline and [n] its whole days (the floor of [delta] in days):
    a deadline strictly in the past renders the absolute value of [n]
    followed by " days ago"; a deadline less than 24 hours ahead renders
    "Today"; one less than 48 hours ahead renders "Tomorrow"; any later one
    renders "In n days".  At the fixed clock 2024-06-01T12:00 the four sample
    deadlines render "2 days ago", "Today", "Tomorrow" and "In 9 days". *)
Theorem format_deadline_relative (deadline now : datetime) (n : Z) :
  valid deadline = true ->
  whole_days (sub deadline now) n ->
  format_deadline (isoformat deadline) RELATIVE now
  = Returned
      (if to_us deadline <? to_us now
       then str_of_int (Z.abs n) ++ lit " days ago"
       else if to_us deadline <? to_us now + 24 * 3600 * 1000000
       then lit "Today"
       else if to_us deadline <? to_us now + 48 * 3600 * 1000000
       then lit "Tomorrow"
       else lit "In " ++ str_of_int n ++ lit " days")
  /\ format_deadline (lit "2024-05-30T12:00") RELATIVE clock_2024_06_01_noon
     = Returned (lit "2 days ago")
  /\ format_deadline (lit "2024-06-01T18:00") RELATIVE clock_2024_06_01_noon
     = Returned (lit "Today")
  /\ format_deadline (lit "2024-06-02T12:00") RELATIVE clock_2024_06_01_noon
     = Returned (lit "Tomorrow")
  /\ format_deadline (lit "2024-06-10T12:00") RELATIVE clock_2024_06_01_noon
     = Returned (lit "In 9 days").
Proof.
  intros Hv Hn. split; [|repeat split; vm_compute; reflexivity].
  unfold format_deadline. rewrite (fromisoformat_isoformat _ Hv).
  cbn [rbind]. rewrite (whole_days_days _ _ Hn).
  unfold sub, timedelta_days, us_per_day in *.
  repeat match goal with
         | |- context [?a <? ?b] => destruct (Z.ltb_spec a b)
         end; try reflexivity; lia.
Qed.

Lemma format_deadline_relative_witness :
  let deadline := mkdt 2024 6 1 11 0 0 0 in
  valid deadline = true
  /\ whole_days (sub deadline clock_2024_06_01_noon) (-1)
  /\ format_deadline (isoformat deadline) RELATIVE clock_2024_06_01_noon
     = Returned (lit "1 days ago").
Proof.
  assert (Hv : valid (mkdt 2024 6 1 11 0 0 0) = true) by reflexivity.
  assert (Hn : whole_days (sub (mkdt 2024 6 1 11 0 0 0) clock_2024_06_01_noon) (-1))
    by (vm_compute; split; [discriminate | reflexivity]).
  split; [exact Hv | split; [exact Hn |]].
  exact (proj1 (format_deadline_relative _ _ _ Hv Hn)).
Defined.

(** ** Sorting and slicing *)

Section SortBy.
Context {A : Type} (key : A -> Z).


Lemma insert_by_perm (x : A) (l : list A) :
  Permutation (insert_by key x l) (x :: l).
Proof.
  induction l as [|y r IH]; simpl; [reflexivity|].
  destruct (key x <=? key y); [reflexivity|].
  rewrite IH. apply perm_swap.
Qed.

Lemma sort_by_perm (l : list A) : Permutation (sort_by key l) l.
Proof.
  induction l as [|x r IH]; simpl; [reflexivity|].
  rewrite insert_by_perm. now apply perm_skip.
Qed.



(** The sort is stable: among entries with the same key the order of the
    input is kept. *)
Lemma insert_by_filter (p : A -> bool) (x : A) (l : list A) :
  (forall y, In y l -> p y = true -> p x = true -> key x <= key y) ->
  filter p (insert_by key x l) = filter p (x :: l).
Proof.
  induction l as [|y r IH]; intros H; [reflexivity|].
  simpl insert_by. destruct (Z.leb_spec (key x) (key y)) as [Hxy|Hxy]; [reflexivity|].
  simpl. simpl in IH. rewrite IH by (intros; apply H; simpl; auto).
  destruct (p x) eqn:Ex, (p y) eqn:Ey; try reflexivity.
  specialize (H y (or_introl eq_refl) Ey eq_refl). lia.
Qed.

Lemma sort_by_stable (k : Z) (l : list A) :
  filter (fun a => key a =? k) (sort_by key l) = filter (fun a => key a =? k) l.
Proof.
  induction l as [|x r IH]; [reflexivity|].
  simpl sort_by. rewrite insert_by_filter.
  - simpl. now rewrite IH.
  - intros y _ Hy Hx. apply Z.eqb_eq in Hy, Hx. lia.
Qed.
End SortBy.

Lemma slice_to_nonneg {A} (limit : Z) (l : list A) :
  0 <= limit -> slice_to limit l = firstn (Z.to_nat limit) l.
Proof.
  intros H. unfold slice_to. destruct (Z.ltb_spec limit 0); [lia|reflexivity].
Qed.

Lemma slice_to_zero {A} (l : list A) : slice_to 0 l = [].
Proof. reflexivity. Qed.

(** A negative bound [-k] drops the last [k] entries. *)
Lemma slice_to_negative {A} (k : nat) (l : list A) :
  (0 < k)%nat ->
  slice_to (- Z.of_nat k) l = firstn (List.length l - k) l.
Proof.
  intros H. unfold slice_to. destruct (Z.ltb_spec (- Z.of_nat k) 0); [|lia].
  f_equal. lia.
Qed.

(** ** The listing *)


Lemma load_assignments_run (fs : filesystem) :
  snd (load_assignments fs) = mkfs true (assignments_file fs).
Proof.
  unfold load_assignments, bind, ensure_data_dir, try_except, lift, ret.
  cbn [assignments_file]. destruct (assignments_file fs) as [text|]; [|reflexivity].
  destruct (loads text) as [v|[]]; reflexivity.
Qed.



(** C2.  With a negative [limit] the slice [assignments_to_show[:limit]] is
    not empty: on the three-entry store, [limit = -1] still shows two entries
    (and [limit = -2] one), where a cap on the number shown would show none. *)
Theorem list_assignments_negative_limit :
  fst (list_assignments clock_2024_06_01_noon true (-1) sample_store)
  = Returned (YourAssignments
                [nth 2 sample_mapping ([], JNull); nth 0 sample_mapping ([], JNull)])
  /\ map fst [nth 2 sample_mapping ([], JNull); nth 0 sample_mapping ([], JNull)]
     = [lit "lab"; lit "essay"]
  /\ (exists shown,
        fst (list_assignments clock_2024_06_01_noon true (-2) sample_store)
        = Returned (YourAssignments shown) /\ map fst shown = [lit "lab"]).
Proof.
  split; [vm_compute; reflexivity|].
  split; [vm_compute; reflexivity|].
  eexists. split; vm_compute; reflexivity.
Qed.

(** With [limit = 0] nothing is shown, whatever the store holds. *)
Lemma list_assignments_zero_limit (now : datetime) (show_all : bool) (fs : filesystem) :
  forall shown,
    fst (list_assignments now show_all 0 fs) = Returned (YourAssignments shown) ->
    shown = [].
Proof.
  intros shown. unfold list_assignments, bind at 1.
  destruct (load_assignments fs) as [[v|e] fs']; [|discriminate].
  destruct (negb (truthy v)); [discriminate|].
  unfold bind, lift. destruct (items v) as [d|e]; [|discriminate].
  destruct (partition_entries now d [] []) as [[up pa]|e]; [|discriminate].
  cbn [fst snd].
  destruct (sort_by by_deadline up ++ (if show_all then sort_by by_deadline pa else []));
    [discriminate|].
  unfold ret. cbn [fst]. rewrite slice_to_zero. now intros [= <-].
Qed.

(** ** Dictionaries *)

Lemma get_set_same {V} (k : str) (v : V) (d : dict V) : get k (set k v d) = Some v.
Proof.
  induction d as [|[k' v'] r IH]; simpl.
  - now rewrite str_eqb_refl.
  - destruct (str_eqb k k') eqn:E; simpl; rewrite E; [reflexivity | exact IH].
Qed.

Lemma get_set_other {V} (k k' : str) (v : V) (d : dict V) :
  k' <> k -> get k' (set k v d) = get k' d.
Proof.
  intros Hne. induction d as [|[k0 v0] r IH]; simpl.
  - apply str_eqb_neq in Hne. now rewrite Hne.
  - destruct (str_eqb k k0) eqn:E; simpl.
    + apply str_eqb_eq in E. subst k0.
      apply str_eqb_neq in Hne. now rewrite Hne.
    + now rewrite IH.
Qed.

Lemma keys_set {V} (k : str) (v : V) (d : dict V) :
  keys (set k v d) = if mem k d then keys d else keys d ++ [k].
Proof.
  unfold mem. induction d as [|[k' v'] r IH]; simpl; [reflexivity|].
  destruct (str_eqb k k') eqn:E; simpl; [reflexivity|].
  unfold keys in *. rewrite IH. now destruct (get k r).
Qed.

Lemma mem_In_keys {V} (k : str) (d : dict V) : mem k d = true <-> In k (keys d).
Proof.
  unfold mem. induction d as [|[k' v'] r IH]; simpl; [split; [discriminate|tauto]|].
  destruct (str_eqb k k') eqn:E.
  - apply str_eqb_eq in E. subst. split; auto.
  - apply str_eqb_neq in E. rewrite IH. split; [auto|]. intros [H|H]; congruence.
Qed.

Lemma set_NoDup {V} (k : str) (v : V) (d : dict V) :
  NoDup (keys d) -> NoDup (keys (set k v d)).
Proof.
  intros H. rewrite keys_set. destruct (mem k d) eqn:E; [exact H|].
  apply NoDup_app; [exact H | repeat constructor; simpl; tauto |].
  intros x Hx [<-|[]]. apply mem_In_keys in Hx. congruence.
Qed.

(** ** Adding *)

Lemma strptime_valid (text : str) (t : datetime) :
  strptime text = Returned t -> valid t = true.
Proof.
  unfold strptime, make.
  destruct (match_date_format text) as [[[[[[y m] d] hh] mi] [|c r]]|]; try discriminate.
  destruct (valid _) eqn:E; [|discriminate]. now intros [= <-].
Qed.

Lemma strptime_raises (text : str) (e : exn) :
  strptime text = Raised e -> e = ValueError.
Proof.
  unfold strptime, make.
  destruct (match_date_format text) as [[[[[[y m] d] hh] mi] [|c r]]|];
    [destruct (valid _); [discriminate|] | |]; now intros [= <-].
Qed.

Lemma format_deadline_long (t now : datetime) :
  valid t = true ->
  format_deadline (isoformat t) LONG now = Returned (strftime_long t).
Proof.
  intros Hv. unfold format_deadline. now rewrite (fromisoformat_isoformat _ Hv).
Qed.

Lemma loads_raises (text : str) (e : exn) :
  loads text = Raised e -> e = JSONDecodeError \/ e = RecursionError.
Proof.
  unfold loads. destruct (starts_with_bom text); [intros [= <-]; auto|].
  destruct (scan_once _ _) as [v rest| |];
    [destruct (skip_ws rest); [discriminate|] | |]; intros [= <-]; auto.
Qed.


(** What [/assignment_add] does once the deadline has been read and the store
    holds a mapping. *)
Lemma add_assignment_stores (now : datetime) (user_id : Z) (name deadline : str)
    (details : option str) (priority : Z) (fs : filesystem)
    (t : datetime) (d : dict value) :
  strptime deadline = Returned t ->
  fst (load_assignments fs) = Returned (JObj d) ->
  add_assignment now user_id name deadline details priority fs
  = (Returned (AssignmentAdded name (strftime_long t)
                 match details with
                 | Some (c :: r) => Some (c :: r)
                 | _ => None
                 end (Z.to_nat priority)),
     mkfs true (Some (dumps (JObj (set name
                        (new_record t details priority user_id now) d))))).
Proof.
  intros Ht Hl. pose proof (load_assignments_run fs) as Hs.
  unfold add_assignment, try_except, bind at 1. unfold lift at 1. rewrite Ht.
  unfold bind at 1. destruct (load_assignments fs) as [r fs']. simpl in Hl, Hs. subst r fs'.
  unfold bind at 1. unfold lift at 1. cbn [setitem].
  unfold bind at 1. unfold save_assignments, bind at 1, ensure_data_dir.
  cbn [assignments_file data_dir].
  unfold bind, lift, ret. rewrite (format_deadline_long _ _ (strptime_valid _ _ Ht)).
  reflexivity.
Qed.

(** A deadline that [strptime] refuses: the error embed, and nothing touched. *)
Lemma add_assignment_refuses (now : datetime) (user_id : Z) (name deadline : str)
    (details : option str) (priority : Z) (fs : filesystem) (e : exn) :
  strptime deadline = Raised e ->
  add_assignment now user_id name deadline details priority fs
  = (Returned InvalidDateFormat, fs).
Proof.
  intros Ht. rewrite (strptime_raises _ _ Ht) in Ht.
  unfold add_assignment, try_except, bind at 1. unfold lift at 1. now rewrite Ht.
Qed.

(** C3.  [/assignment_add] stores the priority clamped to the range 1..5: the
    record written under [name] carries [min(max(1, priority), 5)], which is
    1 for every priority up to 1 (so for 0), 5 for every priority from 5 on
    (so for 9), and the priority itself in between (so 3 for 3). *)
Theorem add_assignment_clamps_priority
    (now : datetime) (user_id : Z) (name deadline : str) (details : option str)
    (priority : Z) (fs : filesystem) (t : datetime) (d : dict value) :
  strptime deadline = Returned t ->
  fst (load_assignments fs) = Returned (JObj d) ->
  exists (d' : dict value) (record : value) (stored : Z),
    assignments_file
      (snd (add_assignment now user_id name deadline details priority fs))
    = Some (dumps (JObj d'))
    /\ get name d' = Some record
    /\ getitem record (lit "priority") = Returned (JInt stored)
    /\ stored = Z.min (Z.max 1 priority) 5
    /\ 1 <= stored <= 5
    /\ (priority <= 1 -> stored = 1)
    /\ (5 <= priority -> stored = 5)
    /\ (1 <= priority <= 5 -> stored = priority)
    /\ getitem (new_record t details 0 user_id now) (lit "priority") = Returned (JInt 1)
    /\ getitem (new_record t details 9 user_id now) (lit "priority") = Returned (JInt 5)
    /\ getitem (new_record t details 3 user_id now) (lit "priority") = Returned (JInt 3).
Proof.
  intros Ht Hl.
  exists (set name (new_record t details priority user_id now) d),
         (new_record t details priority user_id now),
         (Z.min (Z.max 1 priority) 5).
  rewrite (add_assignment_stores _ _ _ _ _ _ _ _ _ Ht Hl). cbn [snd assignments_file].
  repeat split; try reflexivity; try lia; apply get_set_same.
Qed.

Lemma add_assignment_clamps_priority_witness :
  strptime (lit "2024-06-10 12:00") = Returned (mkdt 2024 6 10 12 0 0 0)
  /\ fst (load_assignments sample_store) = Returned (JObj sample_mapping)
  /\ exists (d' : dict value) (record : value) (stored : Z),
       assignments_file
         (snd (add_assignment clock_2024_06_01_noon 7 (lit "essay")
                 (lit "2024-06-10 12:00") None 12 sample_store))
       = Some (dumps (JObj d'))
       /\ get (lit "essay") d' = Some record
       /\ getitem record (lit "priority") = Returned (JInt stored)
       /\ stored = 5.
Proof.
  assert (Ht : strptime (lit "2024-06-10 12:00") = Returned (mkdt 2024 6 10 12 0 0 0))
    by (vm_compute; reflexivity).
  assert (Hl : fst (load_assignments sample_store) = Returned (JObj sample_mapping))
    by (vm_compute; reflexivity).
  split; [exact Ht | split; [exact Hl |]].
  destruct (add_assignment_clamps_priority clock_2024_06_01_noon 7 (lit "essay")
              (lit "2024-06-10 12:00") None 12 sample_store _ _ Ht Hl)
    as (d' & record & stored & Hf & Hg & Hp & Hs & _).
  exists d', record, stored. repeat split; assumption.
Defined.



(** ** The decoder consumes its input *)

Lemma skip_ws_length (s : str) : (List.length (skip_ws s) <= List.length s)%nat.
Proof.
  induction s as [|c r IH]; simpl; [lia|]. destruct (is_ws c); simpl; lia.
Qed.

Lemma strip_prefix_length (p : str) : forall s r,
  strip_prefix p s = Some r -> List.length s = (List.length p + List.length r)%nat.
Proof.
  induction p as [|a p IH]; intros s r; simpl.
  - now intros [= ->].
  - destruct s as [|b s]; [discriminate|]. destruct (a =? b)%N; [|discriminate].
    intros H. apply IH in H. simpl. lia.
Qed.

Lemma span_digits_length (s : str) :
  List.length s = (List.length (fst (span_digits s)) + List.length (snd (span_digits s)))%nat.
Proof.
  induction s as [|c r IH]; simpl; [reflexivity|].
  destruct (is_digit c); [|reflexivity].
  destruct (span_digits r) as [ds rest]. simpl in *. lia.
Qed.

Lemma push_Some (c : N) (o : option (str * str)) (body rest : str) :
  push c o = Some (body, rest) ->
  exists body', o = Some (body', rest) /\ body = c :: body'.
Proof.
  destruct o as [[b r]|]; simpl; [|discriminate].
  intros [= <- <-]. eauto.
Qed.

Lemma scanstring_unfold (c : N) (r : str) :
  scanstring (c :: r) =
  if (c =? 34)%N then Some ([], r)
  else if (c =? 92)%N then
    match r with
    | [] => None
    | e :: r1 =>
        if (e =? 117)%N then
          match r1 with
          | h1 :: h2 :: h3 :: h4 :: r2 =>
              match decode_hex4 h1 h2 h3 h4 with
              | None => None
              | Some uni =>
                  if is_high_surrogate uni then
                    match r2 with
                    | b :: u :: l1 :: l2 :: l3 :: l4 :: r3 =>
                        if ((b =? 92) && (u =? 117))%N then
                          match decode_hex4 l1 l2 l3 l4 with
                          | None => None
                          | Some uni2 =>
                              if is_low_surrogate uni2
                              then push (join_surrogates uni uni2) (scanstring r3)
                              else push uni (scanstring r2)
                          end
                        else push uni (scanstring r2)
                    | _ => push uni (scanstring r2)
                    end
                  else push uni (scanstring r2)
              end
          | _ => None
          end
        else
          match backslash e with
          | Some ch => push ch (scanstring r1)
          | None => None
          end
    end
  else if (c <? 32)%N then None
  else push c (scanstring r).
Proof. reflexivity. Qed.

Lemma scanstring_length (n : nat) : forall s body rest,
  (List.length s <= n)%nat ->
  scanstring s = Some (body, rest) -> (List.length rest < List.length s)%nat.
Proof.
  induction n as [|n IH]; intros s body rest Hn H.
  - destruct s; [discriminate | simpl in Hn; lia].
  - destruct s as [|c r]; [discriminate|].
    rewrite scanstring_unfold in H. simpl in Hn.
    assert (Hrec : forall c' s' body', (List.length s' <= n)%nat ->
                     push c' (scanstring s') = Some (body', rest) ->
                     (List.length rest < List.length s')%nat).
    { intros c' s' body' Hs' Hp. apply push_Some in Hp as (b' & Hp & _).
      eapply IH; eassumption. }
    repeat match type of H with
           | context [if ?b then _ else _] => destruct b
           | context [match ?x with _ => _ end] =>
               match x with
               | scanstring _ => fail 1
               | _ => destruct x
               end
           end;
      try discriminate;
      try (injection H as _ <-; simpl; lia);
      try (apply Hrec in H; simpl in *; lia).
Qed.

Lemma scanstring_shorter (s body rest : str) :
  scanstring s = Some (body, rest) -> (List.length rest < List.length s)%nat.
Proof. apply (scanstring_length (List.length s)). lia. Qed.

Lemma span_digits_shorter (s ds rest : str) :
  span_digits s = (ds, rest) ->
  List.length s = (List.length ds + List.length rest)%nat.
Proof.
  intros H. pose proof (span_digits_length s) as L. now rewrite H in L.
Qed.

Lemma scan_int_part_length (s ds rest : str) :
  scan_int_part s = Some (ds, rest) -> (List.length rest < List.length s)%nat.
Proof.
  unfold scan_int_part. destruct s as [|c r]; [discriminate|].
  destruct (c =? 48)%N; [intros [= <- <-]; simpl; lia|].
  destruct (is_digit c) eqn:E; [|discriminate].
  intros H. assert (H' : span_digits (c :: r) = (ds, rest)) by congruence.
  simpl in H'. rewrite E in H'. destruct (span_digits r) as [ds' rest'] eqn:Er.
  injection H' as <- <-. apply span_digits_shorter in Er. simpl. lia.
Qed.

Lemma scan_frac_part_length (s : str) :
  (List.length (snd (scan_frac_part s)) <= List.length s)%nat.
Proof.
  unfold scan_frac_part. destruct s as [|p [|d r]]; simpl; try lia.
  destruct ((p =? 46)%N && is_digit d)%bool eqn:E; simpl; [|lia].
  apply andb_true_iff in E as [_ E]. rewrite E.
  destruct (span_digits r) as [ds rest] eqn:Er. simpl.
  apply span_digits_shorter in Er. lia.
Qed.

Lemma scan_exp_part_length (s : str) :
  (List.length (snd (scan_exp_part s)) <= List.length s)%nat.
Proof.
  unfold scan_exp_part. destruct s as [|e r]; [simpl; lia|].
  destruct ((e =? 101) || (e =? 69))%N; [|simpl; lia].
  destruct r as [|sg r']; [simpl; lia|].
  destruct ((sg =? 45) || (sg =? 43))%N.
  - destruct (span_digits r') as [[|d ds] rest] eqn:Er; [simpl; lia|].
    apply span_digits_shorter in Er. cbn [snd List.length] in *. lia.
  - destruct (span_digits (sg :: r')) as [[|d ds] rest] eqn:Er; [simpl; lia|].
    apply span_digits_shorter in Er. cbn [snd List.length] in *. lia.
Qed.

Lemma match_number_length (s : str) (v : value) (rest : str) :
  match_number s = Some (v, rest) -> (List.length rest < List.length s)%nat.
Proof.
  unfold match_number.
  set (p := match s with
            | c :: r => if (c =? 45)%N then (true, r) else (false, s)
            | [] => (false, s)
            end).
  assert (Hp : (List.length (snd p) <= List.length s)%nat).
  { subst p. destruct s as [|c r]; simpl; [lia|]. destruct (c =? 45)%N; simpl; lia. }
  destruct p as [negative s0]. simpl in Hp.
  destruct (scan_int_part s0) as [[ds s1]|] eqn:Ei; [|discriminate].
  apply scan_int_part_length in Ei.
  pose proof (scan_frac_part_length s1) as Hf.
  destruct (scan_frac_part s1) as [frac s2]. simpl in Hf.
  pose proof (scan_exp_part_length s2) as He.
  destruct (scan_exp_part s2) as [ex s3]. simpl in He.
  destruct frac, ex; intros [= _ <-]; lia.
Qed.

Lemma of_option_Done {A} (o : option (A * str)) (a : A) (rest : str) :
  of_option o = Done a rest <-> o = Some (a, rest).
Proof.
  destruct o as [[a' r']|]; simpl; split; try discriminate; now intros [= -> ->].
Qed.

Lemma scan_bind_Done {A B} (x : scan A) (k : A -> str -> scan B) (b : B) (rest : str) :
  scan_bind x k = Done b rest ->
  exists a r, x = Done a r /\ k a r = Done b rest.
Proof. destruct x as [a r| |]; simpl; try discriminate. eauto. Qed.

Lemma scan_literal_length (s : str) (v : value) (rest : str) :
  scan_literal s = Done v rest -> (List.length rest < List.length s)%nat.
Proof.
  unfold scan_literal.
  repeat match goal with
         | |- context [strip_prefix ?p s] =>
             let E := fresh "E" in
             destruct (strip_prefix p s) eqn:E;
             [apply strip_prefix_length in E; intros [= _ <-];
              rewrite E; vm_compute List.length; lia|]
         end.
  rewrite of_option_Done. apply match_number_length.
Qed.

Lemma scan_key_length (s key rest : str) :
  scan_key s = Done key rest -> (List.length rest < List.length s)%nat.
Proof.
  unfold scan_key. destruct s as [|q r]; [discriminate|].
  destruct (q =? 34)%N; [|discriminate].
  intros H. apply scan_bind_Done in H as (k & r0 & Hs & H).
  apply of_option_Done, scanstring_shorter in Hs.
  pose proof (skip_ws_length r0) as Hw.
  destruct (skip_ws r0) as [|c r1]; [discriminate|].
  destruct (c =? 58)%N; [|discriminate]. injection H as _ <-.
  pose proof (skip_ws_length r1). simpl in *. lia.
Qed.

Lemma scan_once_S (f : nat) (s : str) :
  scan_once (S f) s =
  match s with
  | [] => Invalid
  | c :: r =>
      if (c =? 34)%N then
        scan_bind (of_option (scanstring r)) (fun body rest => Done (JStr body) rest)
      else if (c =? 123)%N then
        match skip_ws r with
        | [] => Invalid
        | c' :: r' =>
            if (c' =? 125)%N then Done (JObj []) r'
            else scan_bind (scan_members f (c' :: r'))
                   (fun pairs rest => Done (JObj (of_pairs pairs)) rest)
        end
      else if (c =? 91)%N then
        match skip_ws r with
        | [] => Invalid
        | c' :: r' =>
            if (c' =? 93)%N then Done (JArr []) r'
            else scan_bind (scan_items f (c' :: r'))
                   (fun items rest => Done (JArr items) rest)
        end
      else scan_literal s
  end.
Proof. reflexivity. Qed.

Lemma scan_items_S (f : nat) (s : str) :
  scan_items (S f) s = scan_bind (scan_once f s) (after_item (scan_items f)).
Proof. reflexivity. Qed.

Lemma scan_members_S (f : nat) (s : str) :
  scan_members (S f) s =
  scan_bind (scan_key s) (fun key rest =>
  scan_bind (scan_once f rest) (after_member (scan_members f) key)).
Proof. reflexivity. Qed.

Lemma after_item_length (more : str -> scan (list value)) (v : value)
    (rest : str) (items : list value) (rest' : str) :
  consumes more ->
  after_item more v rest = Done items rest' ->
  (List.length rest' < List.length rest)%nat.
Proof.
  intros Hm. unfold after_item. pose proof (skip_ws_length rest) as Hw.
  destruct (skip_ws rest) as [|c r]; [discriminate|]. simpl in Hw.
  destruct (c =? 93)%N; [intros [= _ <-]; lia|].
  destruct (c =? 44)%N; [|discriminate].
  intros H. apply scan_bind_Done in H as (l & r1 & H & E). injection E as _ <-.
  apply Hm in H. pose proof (skip_ws_length r). lia.
Qed.

Lemma after_member_length (more : str -> scan (list (str * value))) (key : str)
    (v : value) (rest : str) (pairs : list (str * value)) (rest' : str) :
  consumes more ->
  after_member more key v rest = Done pairs rest' ->
  (List.length rest' < List.length rest)%nat.
Proof.
  intros Hm. unfold after_member. pose proof (skip_ws_length rest) as Hw.
  destruct (skip_ws rest) as [|c r]; [discriminate|]. simpl in Hw.
  destruct (c =? 125)%N; [intros [= _ <-]; lia|].
  destruct (c =? 44)%N; [|discriminate].
  intros H. apply scan_bind_Done in H as (l & r1 & H & E). injection E as _ <-.
  apply Hm in H. pose proof (skip_ws_length r). lia.
Qed.

Lemma scan_consumes (f : nat) :
  consumes (scan_once f) /\ consumes (scan_items f) /\ consumes (scan_members f).
Proof.
  induction f as [|f (IHo & IHi & IHm)]; [repeat split; intros s a r; discriminate|].
  assert (Ho : consumes (scan_once (S f))).
  { intros s v rest. rewrite scan_once_S. destruct s as [|c r]; [discriminate|].
    destruct (c =? 34)%N.
    { intros H. apply scan_bind_Done in H as (b & r1 & H & E). injection E as _ <-.
      apply of_option_Done, scanstring_shorter in H. simpl. lia. }
    destruct (c =? 123)%N.
    { pose proof (skip_ws_length r) as Hw.
      destruct (skip_ws r) as [|c' r']; [discriminate|]. simpl in Hw.
      destruct (c' =? 125)%N; [intros [= _ <-]; simpl; lia|].
      intros H. apply scan_bind_Done in H as (b & r1 & H & E). injection E as _ <-.
      apply IHm in H. simpl in *. lia. }
    destruct (c =? 91)%N.
    { pose proof (skip_ws_length r) as Hw.
      destruct (skip_ws r) as [|c' r']; [discriminate|]. simpl in Hw.
      destruct (c' =? 93)%N; [intros [= _ <-]; simpl; lia|].
      intros H. apply scan_bind_Done in H as (b & r1 & H & E). injection E as _ <-.
      apply IHi in H. simpl in *. lia. }
    apply scan_literal_length. }
  split; [exact Ho|]. split.
  - intros s items rest. rewrite scan_items_S. intros H.
    apply scan_bind_Done in H as (v & r1 & H & E).
    apply IHo in H. apply after_item_length in E; [lia | exact IHi].
  - intros s pairs rest. rewrite scan_members_S. intros H.
    apply scan_bind_Done in H as (key & r1 & Hk & H).
    apply scan_bind_Done in H as (v & r2 & H & E).
    apply scan_key_length in Hk. apply IHo in H.
    apply after_member_length in E; [lia | exact IHm].
Qed.

(** ** The fuel is enough *)

Lemma scan_bind_Exhausted {A B} (x : scan A) (k : A -> str -> scan B) :
  scan_bind x k = Exhausted ->
  x = Exhausted \/ exists a r, x = Done a r /\ k a r = Exhausted.
Proof. destruct x as [a r| |]; simpl; try discriminate; eauto. Qed.

Lemma of_option_not_Exhausted {A} (o : option (A * str)) : of_option o <> Exhausted.
Proof. now destruct o as [[a r]|]. Qed.

Lemma scan_literal_not_Exhausted (s : str) : scan_literal s <> Exhausted.
Proof.
  unfold scan_literal.
  repeat match goal with
         | |- context [strip_prefix ?p s] => destruct (strip_prefix p s); [discriminate|]
         end.
  apply of_option_not_Exhausted.
Qed.

Lemma scan_key_not_Exhausted (s : str) : scan_key s <> Exhausted.
Proof.
  unfold scan_key. destruct s as [|q r]; [discriminate|].
  destruct (q =? 34)%N; [|discriminate].
  intros H. apply scan_bind_Exhausted in H as [H|(k & r0 & _ & H)].
  - now apply of_option_not_Exhausted in H.
  - destruct (skip_ws r0) as [|c r1]; [discriminate|].
    now destruct (c =? 58)%N.
Qed.

Lemma scan_fuel_enough (f : nat) :
  (forall s, (2 * List.length s + 1 <= f)%nat -> scan_once f s <> Exhausted)
  /\ (forall s, (2 * List.length s + 2 <= f)%nat -> scan_items f s <> Exhausted)
  /\ (forall s, (2 * List.length s + 2 <= f)%nat -> scan_members f s <> Exhausted).
Proof.
  induction f as [|f (IHo & IHi & IHm)]; [repeat split; intros s; lia|].
  destruct (scan_consumes f) as (Co & Ci & Cm).
  split; [|split].
  - intros s Hf. rewrite scan_once_S. destruct s as [|c r]; [discriminate|].
    simpl in Hf.
    destruct (c =? 34)%N.
    { intros H. apply scan_bind_Exhausted in H as [H|(b & r1 & _ & H)];
        [now apply of_option_not_Exhausted in H | discriminate]. }
    destruct (c =? 123)%N.
    { pose proof (skip_ws_length r) as Hw.
      destruct (skip_ws r) as [|c' r']; [discriminate|].
      destruct (c' =? 125)%N; [discriminate|].
      intros H. apply scan_bind_Exhausted in H as [H|(b & r1 & _ & H)];
        [|discriminate].
      revert H. apply IHm. simpl in *. lia. }
    destruct (c =? 91)%N.
    { pose proof (skip_ws_length r) as Hw.
      destruct (skip_ws r) as [|c' r']; [discriminate|].
      destruct (c' =? 93)%N; [discriminate|].
      intros H. apply scan_bind_Exhausted in H as [H|(b & r1 & _ & H)];
        [|discriminate].
      revert H. apply IHi. simpl in *. lia. }
    apply scan_literal_not_Exhausted.
  - intros s Hf. rewrite scan_items_S.
    intros H. apply scan_bind_Exhausted in H as [H|(v & r1 & Hv & H)].
    + revert H. apply IHo. lia.
    + apply Co in Hv. unfold after_item in H.
      pose proof (skip_ws_length r1) as Hw.
      destruct (skip_ws r1) as [|c r2]; [discriminate|].
      destruct (c =? 93)%N; [discriminate|].
      destruct (c =? 44)%N; [|discriminate].
      apply scan_bind_Exhausted in H as [H|(l & r3 & _ & H)]; [|discriminate].
      revert H. apply IHi. pose proof (skip_ws_length r2). simpl in *. lia.
  - intros s Hf. rewrite scan_members_S.
    intros H. apply scan_bind_Exhausted in H as [H|(key & r0 & Hk & H)];
      [now apply scan_key_not_Exhausted in H|].
    apply scan_key_length in Hk.
    apply scan_bind_Exhausted in H as [H|(v & r1 & Hv & H)].
    + revert H. apply IHo. lia.
    + apply Co in Hv. unfold after_member in H.
      pose proof (skip_ws_length r1) as Hw.
      destruct (skip_ws r1) as [|c r2]; [discriminate|].
      destruct (c =? 125)%N; [discriminate|].
      destruct (c =? 44)%N; [|discriminate].
      apply scan_bind_Exhausted in H as [H|(l & r3 & _ & H)]; [|discriminate].
      revert H. apply IHm. pose proof (skip_ws_length r2). simpl in *. lia.
Qed.


(** ** Loading *)

Lemma load_assignments_missing (fs : filesystem) :
  assignments_file fs = None ->
  load_assignments fs = (Returned (JObj []), mkfs true None).
Proof.
  intros H. unfold load_assignments, bind, ensure_data_dir, ret.
  cbn [assignments_file]. now rewrite H.
Qed.

Lemma load_assignments_text (fs : filesystem) (text : str) :
  assignments_file fs = Some text ->
  fst (load_assignments fs) =
  match loads text with
  | Returned v => Returned v
  | Raised JSONDecodeError => Returned (JObj [])
  | Raised e => Raised e
  end.
Proof.
  intros H. unfold load_assignments, bind, ensure_data_dir, try_except, lift, ret.
  cbn [assignments_file]. rewrite H.
  destruct (loads text) as [v|[]]; reflexivity.
Qed.



(** C10.  [load_assignments] hands back whatever [json.load] decodes: only a
    decode failure is turned into the empty mapping.  A file holding a JSON
    array, string or number therefore loads as that array, string or number,
    not as a mapping, and the commands fail on it: on the array [[1, 2]],
    [/assignment_add] raises [TypeError] and [/assignment_list] raises
    [AttributeError]. *)
Theorem load_assignments_returns_parsed_value :
  (forall fs text v,
      assignments_file fs = Some text ->
      loads text = Returned v ->
      fst (load_assignments fs) = Returned v)
  /\ (forall fs text,
        assignments_file fs = Some text ->
        (fst (load_assignments fs) = Returned (JObj [])
         <-> loads text = Raised JSONDecodeError \/ loads text = Returned (JObj [])))
  /\ fst (load_assignments (mkfs true (Some (lit "[1, 2]"))))
     = Returned (JArr [JInt 1; JInt 2])
  /\ fst (load_assignments (mkfs true (Some (encode_string (lit "essay")))))
     = Returned (JStr (lit "essay"))
  /\ fst (load_assignments (mkfs true (Some (lit "42")))) = Returned (JInt 42)
  /\ fst (add_assignment clock_2024_06_01_noon 7 (lit "essay") (lit "2024-06-10 12:00")
            None 3 (mkfs true (Some (lit "[1, 2]"))))
     = Raised TypeError
  /\ fst (list_assignments clock_2024_06_01_noon true 10 (mkfs true (Some (lit "[1, 2]"))))
     = Raised AttributeError.
Proof.
  split; [|split; [|repeat split; vm_compute; reflexivity]].
  - intros fs text v E Hv. now rewrite (load_assignments_text _ _ E), Hv.
  - intros fs text E. rewrite (load_assignments_text _ _ E).
    destruct (loads text) as [v|e] eqn:Hl.
    + split; [intros [= ->]; auto | intros [H|H]; [discriminate | exact H]].
    + destruct (loads_raises _ _ Hl) as [-> | ->].
      * split; auto.
      * split; [discriminate | intros [H|H]; discriminate].
Qed.

Lemma load_assignments_returns_parsed_value_witness :
  let fs := mkfs false (Some (lit "[null, true]")) in
  loads (lit "[null, true]") = Returned (JArr [JNull; JBool true])
  /\ fst (load_assignments fs) = Returned (JArr [JNull; JBool true]).
Proof.
  assert (H : loads (lit "[null, true]") = Returned (JArr [JNull; JBool true]))
    by (vm_compute; reflexivity).
  split; [exact H|].
  exact (proj1 load_assignments_returns_parsed_value
               (mkfs false (Some (lit "[null, true]"))) _ _ eq_refl H).
Defined.

(** ** Strings survive the encoder and the scanner *)

Lemma lor_disjoint (a b : N) (k : N) :
  (b < 2 ^ k)%N -> N.lor (a * 2 ^ k) b = (a * 2 ^ k + b)%N.
Proof.
  intros Hb.
  assert (H : N.land (a * 2 ^ k) b = 0%N).
  { apply N.bits_inj. intros m. rewrite N.land_spec, N.bits_0.
    destruct (N.lt_ge_cases m k) as [Hm|Hm].
    - now rewrite N.mul_pow2_bits_low.
    - rewrite <- (N.mod_small b (2 ^ k)) by assumption.
      rewrite N.mod_pow2_bits_high by assumption. apply andb_false_r. }
  rewrite (N.add_nocarry_lxor _ _ H). symmetry. now apply N.lxor_lor.
Qed.

Lemma hex_val_hex_char (d : N) : (d < 16)%N -> hex_val (hex_char d) = Some d.
Proof.
  intros Hd. unfold hex_val, hex_char.
  destruct (N.ltb_spec d 10) as [H|H].
  - replace ((48 <=? 48 + d) && (48 + d <=? 57))%N with true
      by (symmetry; apply andb_true_iff; split; apply N.leb_le; lia).
    f_equal. lia.
  - replace ((48 <=? 87 + d) && (87 + d <=? 57))%N with false
      by (symmetry; apply andb_false_iff; right; apply N.leb_gt; lia).
    replace ((97 <=? 87 + d) && (87 + d <=? 102))%N with true
      by (symmetry; apply andb_true_iff; split; apply N.leb_le; lia).
    f_equal. lia.
Qed.

Lemma nibble_lt (n k : N) : (N.land (N.shiftr n k) 15 < 16)%N.
Proof.
  change 15%N with (N.ones 4). rewrite N.land_ones.
  apply N.mod_lt. discriminate.
Qed.

Lemma decode_hex4_hex4 (n : N) :
  (n < 65536)%N ->
  decode_hex4 (hex_char (N.land (N.shiftr n 12) 15))
              (hex_char (N.land (N.shiftr n 8) 15))
              (hex_char (N.land (N.shiftr n 4) 15))
              (hex_char (N.land n 15)) = Some n.
Proof.
  intros Hn. unfold decode_hex4.
  rewrite !hex_val_hex_char by apply nibble_lt.
  rewrite (hex_val_hex_char (N.land n 15))
    by (rewrite <- (N.shiftr_0_r n) at 1; apply nibble_lt).
  f_equal. change 15%N with (N.ones 4). rewrite !N.land_ones, !N.shiftr_div_pow2.
  change (2 ^ 12)%N with 4096%N. change (2 ^ 8)%N with 256%N.
  change (2 ^ 4)%N with 16%N.
  zify. Z.to_euclidean_division_equations. lia.
Qed.

Lemma scanstring_u (h1 h2 h3 h4 : N) (r2 : str) :
  scanstring (92%N :: 117%N :: h1 :: h2 :: h3 :: h4 :: r2) =
  match decode_hex4 h1 h2 h3 h4 with
  | None => None
  | Some uni =>
      if is_high_surrogate uni then
        match r2 with
        | b :: u :: l1 :: l2 :: l3 :: l4 :: r3 =>
            if ((b =? 92) && (u =? 117))%N then
              match decode_hex4 l1 l2 l3 l4 with
              | None => None
              | Some uni2 =>
                  if is_low_surrogate uni2
                  then push (join_surrogates uni uni2) (scanstring r3)
                  else push uni (scanstring r2)
              end
            else push uni (scanstring r2)
        | _ => push uni (scanstring r2)
        end
      else push uni (scanstring r2)
  end.
Proof. reflexivity. Qed.

Lemma scanstring_escape_char (c : N) (tail : str) :
  is_scalar c = true ->
  scanstring (escape_char c ++ tail) = push c (scanstring tail).
Proof.
  intros Hc. unfold escape_char.
  destruct (N.eqb_spec c 34) as [->|H34]; [reflexivity|].
  destruct (N.eqb_spec c 92) as [->|H92]; [reflexivity|].
  destruct (N.eqb_spec c 10) as [->|H10]; [reflexivity|].
  destruct (N.eqb_spec c 13) as [->|H13]; [reflexivity|].
  destruct (N.eqb_spec c 9) as [->|H9]; [reflexivity|].
  destruct (N.eqb_spec c 12) as [->|H12]; [reflexivity|].
  destruct (N.eqb_spec c 8) as [->|H8]; [reflexivity|].
  destruct ((32 <=? c) && (c <=? 126))%N eqn:Hp.
  - apply andb_true_iff in Hp as [Hlo Hhi]. apply N.leb_le in Hlo.
    change ([c] ++ tail) with (c :: tail). rewrite scanstring_unfold.
    destruct (N.eqb_spec c 34); [contradiction|].
    destruct (N.eqb_spec c 92); [contradiction|].
    destruct (N.ltb_spec c 32); [lia | reflexivity].
  - unfold is_scalar in Hc.
    destruct (N.ltb_spec c 65536) as [Hs|Hs].
    + unfold hex4. unlit. cbn [app]. rewrite scanstring_u, decode_hex4_hex4 by assumption.
      replace (is_high_surrogate c) with false; [reflexivity|].
      symmetry. unfold is_high_surrogate. apply andb_false_iff.
      apply orb_true_iff in Hc as [Hc|Hc].
      * left. apply N.leb_gt. now apply N.ltb_lt.
      * right. apply andb_true_iff in Hc as [Hc _]. apply N.leb_gt.
        apply N.ltb_lt in Hc. lia.
    + apply orb_true_iff in Hc as [Hc|Hc]; [apply N.ltb_lt in Hc; lia|].
      apply andb_true_iff in Hc as [_ Hc]. apply N.ltb_lt in Hc.
      set (n := (c - 65536)%N).
      assert (Hn : (n < 2 ^ 20)%N) by (change (2 ^ 20)%N with 1048576%N; lia).
      assert (Ex : N.land (N.shiftr n 10) 1023 = (n / 1024)%N).
      { change 1023%N with (N.ones 10). rewrite N.land_ones, N.shiftr_div_pow2.
        change (2 ^ 10)%N with 1024%N. apply N.mod_small.
        apply N.Div0.div_lt_upper_bound. change (2 ^ 20)%N with 1048576%N in Hn. lia. }
      assert (Ey : N.land n 1023 = (n mod 1024)%N).
      { change 1023%N with (N.ones 10). now rewrite N.land_ones. }
      assert (Hx : (n / 1024 < 1024)%N).
      { apply N.Div0.div_lt_upper_bound. change (2 ^ 20)%N with 1048576%N in Hn. lia. }
      assert (Hy : (n mod 1024 < 1024)%N) by (apply N.mod_lt; discriminate).
      assert (Ehi : N.lor 55296 (N.land (N.shiftr n 10) 1023) = (55296 + n / 1024)%N).
      { rewrite Ex. change 55296%N with (54 * 2 ^ 10)%N. now apply lor_disjoint. }
      assert (Elo : N.lor 56320 (N.land n 1023) = (56320 + n mod 1024)%N).
      { rewrite Ey. change 56320%N with (55 * 2 ^ 10)%N. now apply lor_disjoint. }
      rewrite Ehi, Elo. unfold hex4. unlit. cbn [app].
      rewrite scanstring_u, decode_hex4_hex4 by lia.
      replace (is_high_surrogate (55296 + n / 1024)) with true
        by (symmetry; apply andb_true_iff; split; apply N.leb_le; lia).
      replace ((92 =? 92) && (117 =? 117))%N with true by reflexivity.
      rewrite decode_hex4_hex4 by lia.
      replace (is_low_surrogate (56320 + n mod 1024)) with true
        by (symmetry; apply andb_true_iff; split; apply N.leb_le; lia).
      f_equal. unfold join_surrogates.
      replace (55296 + n / 1024 - 55296)%N with (n / 1024)%N by lia.
      replace (56320 + n mod 1024 - 56320)%N with (n mod 1024)%N by lia.
      rewrite N.shiftl_mul_pow2, lor_disjoint by assumption.
      change (2 ^ 10)%N with 1024%N.
      pose proof (N.div_mod n 1024 ltac:(discriminate)). lia.
Qed.

Lemma scanstring_escape (s rest : str) :
  text_ok s = true ->
  scanstring (flat_map escape_char s ++ 34%N :: rest) = Some (s, rest).
Proof.
  induction s as [|c s IH]; intros H.
  - reflexivity.
  - simpl in H. apply andb_true_iff in H as [Hc Hs].
    cbn [flat_map]. rewrite <- app_assoc, scanstring_escape_char by assumption.
    now rewrite IH.
Qed.

Lemma encode_string_app (s rest : str) :
  encode_string s ++ rest = 34%N :: flat_map escape_char s ++ 34%N :: rest.
Proof.
  unfold encode_string. cbn [app]. now rewrite <- app_assoc.
Qed.

(** ** Integers survive the encoder and the scanner *)

Lemma uint_chars_digits (u : Decimal.uint) : forallb is_digit (uint_chars u) = true.
Proof. induction u; simpl; auto. Qed.

Lemma uint_of_chars_uint_chars (u : Decimal.uint) : uint_of_chars (uint_chars u) = u.
Proof.
  unfold uint_of_chars. induction u; simpl; try reflexivity;
    unfold digit_cons at 1; simpl; now rewrite IHu.
Qed.

Lemma delimited_not_digit (c : N) (r : str) :
  delimited (c :: r) -> is_digit c = false /\ c <> 46%N /\ c <> 101%N /\ c <> 69%N.
Proof. simpl. intros [-> | [-> | ->]]; repeat split; discriminate. Qed.

Lemma span_digits_app (ds rest : str) :
  forallb is_digit ds = true -> delimited rest ->
  span_digits (ds ++ rest) = (ds, rest).
Proof.
  intros Hd Hr. induction ds as [|c ds IH]; cbn [app forallb span_digits] in *.
  - destruct rest as [|c r]; [reflexivity|]. cbn [span_digits].
    destruct (delimited_not_digit _ _ Hr) as [-> _]. reflexivity.
  - apply andb_true_iff in Hd as [-> Hd]. now rewrite IH.
Qed.

Lemma scan_frac_part_delimited (rest : str) :
  delimited rest -> scan_frac_part rest = ([], rest).
Proof.
  intros H. unfold scan_frac_part. destruct rest as [|p [|d r]]; try reflexivity.
  destruct (delimited_not_digit _ _ H) as (_ & Hp & _).
  destruct (N.eqb_spec p 46); [contradiction | reflexivity].
Qed.

Lemma scan_exp_part_delimited (rest : str) :
  delimited rest -> scan_exp_part rest = ([], rest).
Proof.
  intros H. unfold scan_exp_part. destruct rest as [|e r]; [reflexivity|].
  destruct (delimited_not_digit _ _ H) as (_ & _ & H1 & H2).
  destruct (N.eqb_spec e 101); [contradiction|].
  destruct (N.eqb_spec e 69); [contradiction | reflexivity].
Qed.

Lemma nzhead_not_D0 (u : Decimal.uint) :
  match Decimal.nzhead u with
  | Decimal.D0 _ => False
  | _ => True
  end.
Proof. induction u; simpl; auto. Qed.

Lemma to_uint_head (n : N) :
  n <> 0%N ->
  exists c ds, str_of_N n = c :: ds /\ is_digit c = true /\ c <> 48%N.
Proof.
  intros Hn. unfold str_of_N.
  pose proof (DecimalN.Unsigned.to_of (N.to_uint n)) as H.
  rewrite DecimalN.Unsigned.of_to in H.
  assert (Hz : N.to_uint n <> Decimal.zero).
  { intros E. apply Hn. rewrite <- (DecimalN.Unsigned.of_to n), E. reflexivity. }
  unfold Decimal.unorm in H. pose proof (nzhead_not_D0 (N.to_uint n)) as Hh.
  destruct (Decimal.nzhead (N.to_uint n)) eqn:E; try contradiction;
    rewrite H; try congruence; simpl;
    eexists _, _; (split; [reflexivity | split; [reflexivity | discriminate]]).
Qed.

Lemma scan_int_part_str_of_N (n : N) (rest : str) :
  delimited rest ->
  scan_int_part (str_of_N n ++ rest) = Some (str_of_N n, rest).
Proof.
  intros Hr. destruct (N.eq_dec n 0) as [->|Hn]; [reflexivity|].
  destruct (to_uint_head n Hn) as (c & ds & E & Hc & Hc0).
  unfold scan_int_part. rewrite E. cbn [app].
  destruct (N.eqb_spec c 48); [contradiction|]. rewrite Hc.
  change (c :: ds ++ rest) with ((c :: ds) ++ rest). rewrite <- E.
  f_equal. apply span_digits_app; [apply uint_chars_digits | exact Hr].
Qed.

Lemma int_of_chars_str_of_N (negative : bool) (n : N) :
  int_of_chars negative (str_of_N n) = if negative then - Z.of_N n else Z.of_N n.
Proof.
  unfold int_of_chars, str_of_N.
  now rewrite uint_of_chars_uint_chars, DecimalN.Unsigned.of_to.
Qed.

Lemma str_of_N_head (n : N) :
  exists c ds, str_of_N n = c :: ds /\ is_digit c = true.
Proof.
  destruct (N.eq_dec n 0) as [->|Hn].
  - exists 48%N, []. split; reflexivity.
  - destruct (to_uint_head n Hn) as (c & ds & E & Hc & _). eauto.
Qed.

Lemma match_number_str_of_int (z : Z) (rest : str) :
  delimited rest ->
  match_number (str_of_int z ++ rest) = Some (JInt z, rest).
Proof.
  intros Hr. unfold match_number, str_of_int.
  destruct (Z.ltb_spec z 0) as [Hz|Hz].
  - cbn [app]. change (45 =? 45)%N with true. cbv beta iota.
    rewrite scan_int_part_str_of_N, scan_frac_part_delimited, scan_exp_part_delimited
      by assumption.
    rewrite int_of_chars_str_of_N, N2Z.inj_abs_N.
    now replace (- Z.abs z) with z by lia.
  - destruct (str_of_N_head (Z.abs_N z)) as (c & ds & E & Hc).
    assert (Hm : (c =? 45)%N = false).
    { apply N.eqb_neq. intros ->. discriminate. }
    rewrite E at 1. cbn [app]. rewrite Hm. cbv beta iota.
    rewrite scan_int_part_str_of_N, scan_frac_part_delimited, scan_exp_part_delimited
      by assumption.
    rewrite int_of_chars_str_of_N, N2Z.inj_abs_N.
    now replace (Z.abs z) with z by lia.
Qed.

Lemma strip_prefix_head (p s : str) (a b : N) :
  a <> b -> strip_prefix (a :: p) (b :: s) = None.
Proof. intros H. simpl. now destruct (N.eqb_spec a b). Qed.

Lemma scan_literal_str_of_int (z : Z) (rest : str) :
  delimited rest ->
  scan_literal (str_of_int z ++ rest) = Done (JInt z) rest.
Proof.
  intros Hr. unfold scan_literal.
  rewrite (match_number_str_of_int z rest Hr).
  unfold str_of_int. destruct (str_of_N_head (Z.abs_N z)) as (c & ds & E & Hc).
  assert (Hd : (48 <= c <= 57)%N).
  { unfold is_digit in Hc. apply andb_true_iff in Hc as [H1 H2].
    apply N.leb_le in H1, H2. lia. }
  unlit. rewrite E. destruct (z <? 0); cbn [app].
  - rewrite !strip_prefix_head by discriminate.
    cbn [strip_prefix]. change (45 =? 45)%N with true. cbv beta iota.
    destruct (N.eqb_spec 73 c); [lia | reflexivity].
  - rewrite !strip_prefix_head by lia. reflexivity.
Qed.

(** ** Values survive the encoder and the scanner *)

Section ValueInduction.
Variable P : value -> Prop.
Hypothesis HNull : P JNull.
Hypothesis HBool : forall b, P (JBool b).
Hypothesis HInt : forall z, P (JInt z).
Hypothesis HFloat : forall l, P (JFloat l).
Hypothesis HStr : forall s, P (JStr s).
Hypothesis HArr : forall items, Forall P items -> P (JArr items).
Hypothesis HObj : forall members, Forall (fun kv => P (snd kv)) members -> P (JObj members).

Fixpoint value_nested_ind (v : value) : P v :=
  match v with
  | JNull => HNull
  | JBool b => HBool b
  | JInt z => HInt z
  | JFloat l => HFloat l
  | JStr s => HStr s
  | JArr items =>
      HArr items
        ((fix go (l : list value) : Forall P l :=
            match l with
            | [] => Forall_nil P
            | x :: r => Forall_cons x (value_nested_ind x) (go r)
            end) items)
  | JObj members =>
      HObj members
        ((fix go (l : list (str * value)) : Forall (fun kv => P (snd kv)) l :=
            match l with
            | [] => Forall_nil _
            | kv :: r => Forall_cons kv (value_nested_ind (snd kv)) (go r)
            end) members)
  end.
End ValueInduction.

Lemma nodup_keys_NoDup (ks : list str) : nodup_keys ks = true <-> NoDup ks.
Proof.
  induction ks as [|k r IH]; simpl.
  - split; [constructor | reflexivity].
  - rewrite andb_true_iff, negb_true_iff, IH. split.
    + intros [Hk Hr]. constructor; [|exact Hr].
      intros Hin. apply Bool.not_true_iff_false in Hk. apply Hk.
      apply existsb_exists. exists k. split; [exact Hin | apply str_eqb_refl].
    + intros H. inversion H as [|? ? Hk Hr]; subst. split; [|exact Hr].
      apply Bool.not_true_iff_false. intros He.
      apply existsb_exists in He as (k' & Hin & He). apply str_eqb_eq in He.
      now subst.
Qed.

Lemma set_fresh {V} (k : str) (v : V) (d : dict V) :
  ~ In k (keys d) -> set k v d = d ++ [(k, v)].
Proof.
  induction d as [|[k' v'] r IH]; simpl; intros H; [reflexivity|].
  destruct (str_eqb k k') eqn:E.
  - apply str_eqb_eq in E. subst. tauto.
  - rewrite IH by tauto. reflexivity.
Qed.

Lemma of_pairs_acc {V} (l acc : dict V) :
  NoDup (keys (acc ++ l)) ->
  fold_left (fun d kv => set (fst kv) (snd kv) d) l acc = acc ++ l.
Proof.
  revert acc. induction l as [|[k v] l IH]; intros acc H; simpl.
  - now rewrite app_nil_r.
  - assert (Hk : ~ In k (keys acc)).
    { unfold keys in *. rewrite map_app in H. simpl in H.
      apply NoDup_remove_2 in H. rewrite in_app_iff in H. tauto. }
    rewrite (set_fresh _ _ _ Hk), IH; rewrite <- app_assoc; [reflexivity | exact H].
Qed.

Lemma of_pairs_nodup {V} (d : dict V) : NoDup (keys d) -> of_pairs d = d.
Proof. intros H. unfold of_pairs. now rewrite of_pairs_acc. Qed.

Lemma dumps_opens (v : value) : storable v = true -> opens_value (dumps v).
Proof.
  unfold opens_value. destruct v as [|[]|z|l|s|items|members]; simpl; intros H;
    try discriminate;
    try (eexists _, _; split; [reflexivity|]; repeat split; discriminate).
  unfold str_of_int. destruct (str_of_N_head (Z.abs_N z)) as (c & ds & E & Hc).
  assert (Hd : (48 <= c <= 57)%N).
  { unfold is_digit in Hc. apply andb_true_iff in Hc as [H1 H2].
    apply N.leb_le in H1, H2. lia. }
  destruct (z <? 0).
  - eexists _, _; split; [reflexivity|]. repeat split; discriminate.
  - rewrite E. exists c, ds. split; [reflexivity|].
    assert (is_ws c = false).
    { unfold is_ws. repeat (apply orb_false_iff; split); apply N.eqb_neq; lia. }
    repeat split; try assumption; lia.
Qed.

Lemma skip_ws_opens (s rest : str) :
  opens_value s -> skip_ws (s ++ rest) = s ++ rest.
Proof.
  intros (c & r & -> & Hws & _). simpl. now rewrite Hws.
Qed.

Lemma after_item_close (more : str -> scan (list value)) (v : value) (rest : str) :
  after_item more v (93%N :: rest) = Done [v] rest.
Proof. reflexivity. Qed.

Lemma after_item_comma (more : str -> scan (list value)) (v : value) (s : str) :
  after_item more v (44%N :: 32%N :: s)
  = scan_bind (more (skip_ws s)) (fun items rest' => Done (v :: items) rest').
Proof. reflexivity. Qed.

Lemma after_member_close (more : str -> scan (list (str * value))) (k : str)
    (v : value) (rest : str) :
  after_member more k v (125%N :: rest) = Done [(k, v)] rest.
Proof. reflexivity. Qed.

Lemma after_member_comma (more : str -> scan (list (str * value))) (k : str)
    (v : value) (s : str) :
  after_member more k v (44%N :: 32%N :: s)
  = scan_bind (more (skip_ws s)) (fun pairs rest' => Done ((k, v) :: pairs) rest').
Proof. reflexivity. Qed.

Lemma scan_key_encoded (k s : str) :
  text_ok k = true ->
  scan_key (encode_string k ++ 58%N :: 32%N :: s) = Done k (skip_ws s).
Proof.
  intros H. rewrite encode_string_app. unfold scan_key.
  change (34 =? 34)%N with true. cbv beta iota.
  rewrite (scanstring_escape _ _ H). reflexivity.
Qed.

Lemma opens_value_app (s t : str) : opens_value s -> opens_value (s ++ t).
Proof.
  intros (c & r & -> & H). exists c, (r ++ t). split; [reflexivity | exact H].
Qed.

Lemma join_items_opens (x : value) (r : list value) :
  storable x = true -> opens_value (join_items dumps (x :: r)).
Proof.
  intros H. destruct r; cbn [join_items];
    [|apply opens_value_app]; now apply dumps_opens.
Qed.

Lemma encode_string_opens (k : str) : opens_value (encode_string k).
Proof.
  eexists _, _. split; [reflexivity|]. repeat split; discriminate.
Qed.

Lemma join_members_opens (k : str) (x : value) (r : dict value) :
  opens_value (join_members dumps ((k, x) :: r)).
Proof.
  destruct r as [|[k' x'] r]; cbn [join_members];
    apply opens_value_app, encode_string_opens.
Qed.

Lemma join_items_more (enc : value -> str) (x y : value) (r : list value) :
  join_items enc (x :: y :: r) = enc x ++ 44%N :: 32%N :: join_items enc (y :: r).
Proof. reflexivity. Qed.

Lemma join_members_more (enc : value -> str) (k k' : str) (x y : value)
    (r : dict value) :
  join_members enc ((k, x) :: (k', y) :: r)
  = encode_string k ++ 58%N :: 32%N :: enc x
    ++ 44%N :: 32%N :: join_members enc ((k', y) :: r).
Proof. reflexivity. Qed.

Lemma join_members_one (enc : value -> str) (k : str) (x : value) :
  join_members enc [(k, x)] = encode_string k ++ 58%N :: 32%N :: enc x.
Proof. reflexivity. Qed.

Lemma scan_items_join (items : list value) :
  items <> [] ->
  Forall round_trips items ->
  forallb storable items = true ->
  forall fuel rest,
    scans_to (scan_items fuel (join_items dumps items ++ 93%N :: rest)) items rest.
Proof.
  induction items as [|x r IH]; [congruence|]. intros _ HF Hs fuel rest.
  inversion HF as [|? ? Hx Hr]; subst.
  cbn [forallb] in Hs. apply andb_true_iff in Hs as [Hsx Hsr].
  destruct fuel as [|fuel]; [right; reflexivity|]. rewrite scan_items_S.
  destruct r as [|y r'].
  - cbn [join_items].
    destruct (Hx Hsx fuel (93%N :: rest)) as [E|E];
      [simpl; auto | rewrite E | rewrite E; right; reflexivity].
    left. reflexivity.
  - rewrite join_items_more, <- app_assoc. cbn [app].
    destruct (Hx Hsx fuel (44%N :: 32%N :: join_items dumps (y :: r') ++ 93%N :: rest))
      as [E|E]; [simpl; auto | rewrite E | rewrite E; right; reflexivity].
    cbn [scan_bind]. rewrite after_item_comma.
    cbn [forallb] in Hsr. pose proof Hsr as Hsy. apply andb_true_iff in Hsy as [Hsy _].
    rewrite skip_ws_opens by now apply join_items_opens.
    destruct (IH ltac:(discriminate) Hr Hsr fuel rest) as [E'|E']; rewrite E';
      [left | right]; reflexivity.
Qed.

Lemma scan_members_join (members : dict value) :
  members <> [] ->
  Forall (fun kv => round_trips (snd kv)) members ->
  forallb (fun kv => text_ok (fst kv) && storable (snd kv)) members = true ->
  forall fuel rest,
    scans_to (scan_members fuel (join_members dumps members ++ 125%N :: rest))
             members rest.
Proof.
  induction members as [|[k x] r IH]; [congruence|]. intros _ HF Hs fuel rest.
  inversion HF as [|? ? Hx Hr]; subst. cbn [snd] in Hx.
  cbn [forallb fst snd] in Hs. apply andb_true_iff in Hs as [Hsx Hsr].
  apply andb_true_iff in Hsx as [Hk Hsx].
  destruct fuel as [|fuel]; [right; reflexivity|]. rewrite scan_members_S.
  destruct r as [|[k' y] r'].
  - rewrite join_members_one, <- app_assoc. cbn [app].
    rewrite (scan_key_encoded _ _ Hk). cbn [scan_bind].
    rewrite skip_ws_opens by now apply dumps_opens.
    destruct (Hx Hsx fuel (125%N :: rest)) as [E|E];
      [simpl; auto | rewrite E | rewrite E; right; reflexivity].
    left. reflexivity.
  - rewrite join_members_more, <- app_assoc. cbn [app].
    rewrite <- app_assoc. cbn [app].
    rewrite (scan_key_encoded _ _ Hk). cbn [scan_bind].
    rewrite skip_ws_opens by now apply dumps_opens.
    destruct (Hx Hsx fuel
                (44%N :: 32%N :: join_members dumps ((k', y) :: r') ++ 125%N :: rest))
      as [E|E]; [simpl; auto | rewrite E | rewrite E; right; reflexivity].
    cbn [scan_bind]. rewrite after_member_comma.
    rewrite skip_ws_opens by apply join_members_opens.
    destruct (IH ltac:(discriminate) Hr Hsr fuel rest) as [E'|E']; rewrite E';
      [left | right]; reflexivity.
Qed.

Lemma dumps_round_trips (v : value) : round_trips v.
Proof.
  induction v as [|b|z|l|s|items IH|members IH] using value_nested_ind;
    intros Hs fuel rest Hr; (destruct fuel as [|fuel]; [right; reflexivity|]);
    rewrite scan_once_S.
  - left. reflexivity.
  - left. destruct b; reflexivity.
  - left. destruct (dumps_opens (JInt z) eq_refl) as (c & r & E & _).
    rewrite <- (scan_literal_str_of_int z rest Hr).
    cbn [dumps] in *. unfold str_of_int in *.
    destruct (str_of_N_head (Z.abs_N z)) as (c' & ds & E' & Hc).
    assert (Hd : (48 <= c' <= 57)%N).
    { unfold is_digit in Hc. apply andb_true_iff in Hc as [H1 H2].
      apply N.leb_le in H1, H2. lia. }
    destruct (z <? 0); [reflexivity|].
    rewrite E'. cbn [app].
    destruct (N.eqb_spec c' 34); [lia|]. destruct (N.eqb_spec c' 123); [lia|].
    destruct (N.eqb_spec c' 91); [lia|]. reflexivity.
  - discriminate.
  - left. cbn [dumps storable] in *. rewrite encode_string_app.
    change (34 =? 34)%N with true. cbv beta iota.
    now rewrite scanstring_escape.
  - cbn [dumps storable] in *. unlit. rewrite <- !app_assoc. cbn [app].
    change (91 =? 34)%N with false. change (91 =? 123)%N with false.
    change (91 =? 91)%N with true. cbv beta iota.
    destruct items as [|x r]; [left; reflexivity|].
    rewrite skip_ws_opens
      by (apply join_items_opens; cbn [forallb] in Hs;
          now apply andb_true_iff in Hs as [? _]).
    destruct (join_items_opens x r) as (c & t & E & _ & Hc & _);
      [cbn [forallb] in Hs; now apply andb_true_iff in Hs as [? _]|].
    rewrite E. cbn [app]. destruct (N.eqb_spec c 93); [contradiction|].
    change (c :: t ++ 93%N :: rest) with ((c :: t) ++ 93%N :: rest). rewrite <- E.
    destruct (scan_items_join (x :: r) ltac:(discriminate) IH Hs fuel rest)
      as [E'|E']; rewrite E'; [left | right]; reflexivity.
  - cbn [dumps storable] in *. apply andb_true_iff in Hs as [Hs Hk].
    unlit. rewrite <- !app_assoc. cbn [app].
    change (123 =? 34)%N with false. change (123 =? 123)%N with true.
    cbv beta iota.
    destruct members as [|[k x] r]; [left; reflexivity|].
    rewrite skip_ws_opens by apply join_members_opens.
    destruct (join_members_opens k x r) as (c & t & E & _ & _ & Hc).
    rewrite E. cbn [app]. destruct (N.eqb_spec c 125); [contradiction|].
    change (c :: t ++ 125%N :: rest) with ((c :: t) ++ 125%N :: rest). rewrite <- E.
    destruct (scan_members_join ((k, x) :: r) ltac:(discriminate) IH Hs fuel rest)
      as [E'|E']; rewrite E'; [left | right]; [|reflexivity].
    cbn [scan_bind]. rewrite of_pairs_nodup by now apply nodup_keys_NoDup.
    reflexivity.
Qed.

(** What [json.dumps] writes, [json.loads] reads back. *)
Lemma loads_dumps (v : value) : storable v = true -> loads (dumps v) = Returned v.
Proof.
  intros Hs. unfold loads.
  destruct (dumps_opens v Hs) as (c & r & E & Hws & Hc).
  assert (Hbom : starts_with_bom (dumps v) = false).
  { rewrite E. simpl.
    destruct v as [|[]|z|l|s|items|members]; try discriminate;
      try (injection E as <- _; reflexivity).
    cbn [dumps] in E. unfold str_of_int in E.
    destruct (str_of_N_head (Z.abs_N z)) as (c' & ds & E' & Hd).
    destruct (z <? 0); [injection E as <- _; reflexivity|].
    rewrite E' in E. injection E as <- _.
    apply N.eqb_neq. intros ->. discriminate. }
  rewrite Hbom.
  pose proof (skip_ws_opens (dumps v) [] (ex_intro _ c (ex_intro _ r (conj E (conj Hws Hc)))))
    as Hsk.
  rewrite app_nil_r in Hsk. rewrite Hsk.
  assert (Hf : scan_once (fuel_for (dumps v)) (dumps v) <> Exhausted).
  { apply scan_fuel_enough. unfold fuel_for. lia. }
  destruct (dumps_round_trips v Hs (fuel_for (dumps v)) [] I) as [H|H];
    rewrite app_nil_r in H; [now rewrite H | contradiction].
Qed.

(** ** Saving and loading *)

Lemma save_assignments_run (data : value) (fs : filesystem) :
  save_assignments data fs = (Returned tt, mkfs true (Some (dumps data))).
Proof. reflexivity. Qed.

Lemma load_assignments_saved (data : value) (dir : bool) :
  storable data = true ->
  load_assignments (mkfs dir (Some (dumps data)))
  = (Returned data, mkfs true (Some (dumps data))).
Proof.
  intros H. unfold load_assignments, bind, ensure_data_dir, try_except, lift.
  cbn [assignments_file]. now rewrite (loads_dumps _ H).
Qed.

(** X1.  Saving a mapping and loading it again gives the mapping back, field
    for field, and loading leaves the saved file as it is: this holds for
    every value without floats whose strings are made of Unicode scalar
    values and whose objects have no repeated key. *)
Theorem save_then_load (data : value) (fs : filesystem) :
  storable data = true ->
  load_assignments (snd (save_assignments data fs))
  = (Returned data, snd (save_assignments data fs)).
Proof.
  intros H. rewrite save_assignments_run. cbn [snd].
  now apply load_assignments_saved.
Qed.

Lemma save_then_load_witness :
  storable (JObj sample_mapping) = true
  /\ load_assignments (snd (save_assignments (JObj sample_mapping) (mkfs false None)))
     = (Returned (JObj sample_mapping),
        snd (save_assignments (JObj sample_mapping) (mkfs false None))).
Proof.
  assert (H : storable (JObj sample_mapping) = true) by (vm_compute; reflexivity).
  split; [exact H|].
  exact (save_then_load (JObj sample_mapping) (mkfs false None) H).
Defined.

(** ** Deleting from a dictionary *)

Lemma get_del_other {V} (k name : str) (d : dict V) :
  k <> name -> get k (del name d) = get k d.
Proof.
  intros Hne. induction d as [|[k' v'] r IH]; [reflexivity|].
  simpl. destruct (str_eqb name k') eqn:E.
  - apply str_eqb_eq in E. subst k'.
    apply str_eqb_neq in Hne. now rewrite Hne.
  - simpl. now rewrite IH.
Qed.

Lemma keys_del_incl {V} (name : str) (d : dict V) (k : str) :
  In k (keys (del name d)) -> In k (keys d).
Proof.
  induction d as [|[k' v'] r IH]; [tauto|].
  simpl. destruct (str_eqb name k'); simpl; tauto.
Qed.

Lemma del_NoDup {V} (name : str) (d : dict V) :
  NoDup (keys d) -> NoDup (keys (del name d)).
Proof.
  induction d as [|[k' v'] r IH]; [auto|].
  simpl. intros H. inversion H as [|? ? Hk Hr]; subst.
  destruct (str_eqb name k'); [exact Hr|].
  simpl. constructor; [|now apply IH].
  intros Hin. apply Hk. eapply keys_del_incl. exact Hin.
Qed.

Lemma mem_del {V} (name : str) (d : dict V) :
  NoDup (keys d) -> mem name (del name d) = false.
Proof.
  intros H. apply Bool.not_true_iff_false. rewrite mem_In_keys.
  induction d as [|[k' v'] r IH]; [tauto|].
  simpl in *. inversion H as [|? ? Hk Hr]; subst.
  destruct (str_eqb name k') eqn:E.
  - apply str_eqb_eq in E. now subst.
  - apply str_eqb_neq in E. simpl. intros [Heq|Hin]; [congruence | now apply IH].
Qed.

Lemma del_absent {V} (name : str) (d : dict V) : mem name d = false -> del name d = d.
Proof.
  unfold mem. induction d as [|[k' v'] r IH]; [reflexivity|].
  simpl. destruct (str_eqb name k'); [discriminate|].
  intros H. now rewrite IH.
Qed.

Lemma forallb_del {V} (p : str * V -> bool) (name : str) (d : dict V) :
  forallb p d = true -> forallb p (del name d) = true.
Proof.
  induction d as [|[k' v'] r IH]; [auto|].
  simpl. intros H. apply andb_true_iff in H as [H1 H2].
  destruct (str_eqb name k'); [exact H2|].
  simpl. now rewrite H1, IH.
Qed.

Lemma storable_del (name : str) (d : dict value) :
  storable (JObj d) = true -> storable (JObj (del name d)) = true.
Proof.
  cbn [storable]. intros H. apply andb_true_iff in H as [H1 H2].
  apply andb_true_iff. split; [now apply forallb_del|].
  apply nodup_keys_NoDup, del_NoDup. now apply nodup_keys_NoDup.
Qed.

Lemma storable_set (name : str) (v : value) (d : dict value) :
  text_ok name = true -> storable v = true ->
  storable (JObj d) = true -> storable (JObj (set name v d)) = true.
Proof.
  cbn [storable]. intros Hn Hv H. apply andb_true_iff in H as [H1 H2].
  apply andb_true_iff. split.
  - clear H2. induction d as [|[k' v'] r IH]; simpl.
    + cbn [fst snd]. now rewrite Hn, Hv.
    + simpl in H1. apply andb_true_iff in H1 as [Ha Hb].
      destruct (str_eqb name k') eqn:E; simpl.
      * cbn [fst snd] in *. apply andb_true_iff in Ha as [Ha _].
        now rewrite Ha, Hv, Hb.
      * now rewrite Ha, IH.
  - apply nodup_keys_NoDup, set_NoDup. now apply nodup_keys_NoDup.
Qed.

(** ** Removing *)

(** X2.  [/assignment_remove] on a store that holds a mapping: a name that is
    present is deleted, the rest of the mapping is written back and the
    removal is confirmed; a name that is absent gets the not-found answer and
    the backing file keeps its text, nothing being saved. *)
Theorem remove_assignment_effect (name : str) (fs : filesystem) (d : dict value) :
  fst (load_assignments fs) = Returned (JObj d) ->
  remove_assignment name fs
  = if mem name d
    then (Returned (AssignmentRemoved name),
          mkfs true (Some (dumps (JObj (del name d)))))
    else (Returned (AssignmentNotFound name), mkfs true (assignments_file fs)).
Proof.
  intros Hl. pose proof (load_assignments_run fs) as Hs.
  unfold remove_assignment, bind at 1.
  destruct (load_assignments fs) as [r fs']. simpl in Hl, Hs. subst r fs'.
  unfold bind at 1. unfold lift at 1. cbn [contains].
  destruct (mem name d) eqn:E; [|reflexivity].
  unfold bind at 1. unfold lift at 1. cbn [delitem]. rewrite E. reflexivity.
Qed.

Lemma remove_assignment_effect_witness :
  fst (load_assignments sample_store) = Returned (JObj sample_mapping)
  /\ remove_assignment (lit "quiz") sample_store
     = (Returned (AssignmentRemoved (lit "quiz")),
        mkfs true (Some (dumps (JObj (del (lit "quiz") sample_mapping)))))
  /\ remove_assignment (lit "exam") sample_store
     = (Returned (AssignmentNotFound (lit "exam")),
        mkfs true (assignments_file sample_store)).
Proof.
  assert (Hl : fst (load_assignments sample_store) = Returned (JObj sample_mapping))
    by (vm_compute; reflexivity).
  split; [exact Hl|]. split.
  - exact (remove_assignment_effect (lit "quiz") sample_store sample_mapping Hl).
  - exact (remove_assignment_effect (lit "exam") sample_store sample_mapping Hl).
Defined.

(** X3.  Removing the same name twice: when the stored mapping holds the name
    the first command confirms the removal and the second one answers not
    found and changes nothing; after the first command the store loads as the
    old mapping without that name, every other entry unchanged. *)
Theorem remove_assignment_twice (name : str) (fs : filesystem) (d : dict value) :
  fst (load_assignments fs) = Returned (JObj d) ->
  storable (JObj d) = true ->
  mem name d = true ->
  let fs1 := snd (remove_assignment name fs) in
  fst (remove_assignment name fs) = Returned (AssignmentRemoved name)
  /\ remove_assignment name fs1 = (Returned (AssignmentNotFound name), fs1)
  /\ load_assignments fs1 = (Returned (JObj (del name d)), fs1)
  /\ mem name (del name d) = false
  /\ (forall k, k <> name -> get k (del name d) = get k d).
Proof.
  intros Hl Hs Hm. cbv zeta.
  rewrite (remove_assignment_effect _ _ _ Hl), Hm. cbn [fst snd].
  pose proof (storable_del name d Hs) as Hs'.
  pose proof (load_assignments_saved _ true Hs') as Hl'.
  assert (Hn : mem name (del name d) = false).
  { apply mem_del. cbn [storable] in Hs. apply andb_true_iff in Hs as [_ Hs].
    now apply nodup_keys_NoDup. }
  repeat split.
  - rewrite (remove_assignment_effect name _ (del name d)) by now rewrite Hl'.
    now rewrite Hn.
  - exact Hl'.
  - exact Hn.
  - intros k Hk. now apply get_del_other.
Qed.

Lemma remove_assignment_twice_witness :
  let fs1 := snd (remove_assignment (lit "quiz") sample_store) in
  fst (remove_assignment (lit "quiz") sample_store)
  = Returned (AssignmentRemoved (lit "quiz"))
  /\ remove_assignment (lit "quiz") fs1 = (Returned (AssignmentNotFound (lit "quiz")), fs1).
Proof.
  assert (Hl : fst (load_assignments sample_store) = Returned (JObj sample_mapping))
    by (vm_compute; reflexivity).
  assert (Hs : storable (JObj sample_mapping) = true) by (vm_compute; reflexivity).
  assert (Hm : mem (lit "quiz") sample_mapping = true) by (vm_compute; reflexivity).
  destruct (remove_assignment_twice (lit "quiz") sample_store sample_mapping Hl Hs Hm)
    as (H1 & H2 & _).
  split; [exact H1 | exact H2].
Defined.

(** ** Records written by [/assignment_add] *)

Lemma text_ok_app (a b : str) : text_ok (a ++ b) = text_ok a && text_ok b.
Proof. apply forallb_app. Qed.

Lemma text_ok_pad (w : nat) : forall n, text_ok (pad w n) = true.
Proof.
  induction w as [|w IH]; intros n; [reflexivity|].
  cbn [pad]. rewrite text_ok_app, IH. cbn [text_ok forallb andb].
  rewrite andb_true_r. pose proof (Z.mod_pos_bound n 10 ltac:(lia)) as H.
  unfold is_scalar, digit_char. apply orb_true_iff. left. apply N.ltb_lt. lia.
Qed.

Lemma text_ok_isoformat (t : datetime) : text_ok (isoformat t) = true.
Proof.
  unfold isoformat. rewrite !text_ok_app, !text_ok_pad.
  destruct (microsecond t =? 0); [reflexivity|].
  now rewrite text_ok_app, text_ok_pad.
Qed.

Lemma storable_new_record (t : datetime) (details : option str) (priority user_id : Z)
    (now : datetime) :
  details_ok details = true ->
  storable (new_record t details priority user_id now) = true.
Proof.
  intros Hd. unfold new_record. cbn [storable forallb fst snd].
  rewrite !text_ok_isoformat.
  replace (text_ok match details with Some d => d | None => [] end) with true
    by (destruct details; [now symmetry | reflexivity]).
  reflexivity.
Qed.

Lemma entry_deadline_new_record (t : datetime) (details : option str)
    (priority user_id : Z) (now : datetime) :
  valid t = true ->
  entry_deadline (new_record t details priority user_id now) = Returned t.
Proof.
  intros Hv. unfold entry_deadline, new_record, getitem.
  change (get (lit "deadline") _) with (Some (JStr (isoformat t))).
  cbn [rbind]. now apply fromisoformat_isoformat.
Qed.

Lemma set_set {V} (k : str) (v1 v2 : V) (d : dict V) :
  set k v2 (set k v1 d) = set k v2 d.
Proof.
  induction d as [|[k' v'] r IH]; simpl.
  - now rewrite str_eqb_refl.
  - destruct (str_eqb k k') eqn:E; simpl; rewrite E; [reflexivity | now rewrite IH].
Qed.

Lemma mem_set {V} (k : str) (v : V) (d : dict V) : mem k (set k v d) = true.
Proof. unfold mem. now rewrite get_set_same. Qed.

(** Adding on a store that holds a storable mapping: the store then loads as
    the mapping with the new record set under [name]. *)
Lemma add_assignment_then_load (now : datetime) (user_id : Z) (name deadline : str)
    (details : option str) (priority : Z) (fs : filesystem)
    (t : datetime) (d : dict value) :
  strptime deadline = Returned t ->
  fst (load_assignments fs) = Returned (JObj d) ->
  storable (JObj d) = true ->
  text_ok name = true ->
  details_ok details = true ->
  let fs1 := snd (add_assignment now user_id name deadline details priority fs) in
  let d1 := set name (new_record t details priority user_id now) d in
  load_assignments fs1 = (Returned (JObj d1), fs1) /\ storable (JObj d1) = true.
Proof.
  intros Ht Hl Hs Hn Hd. cbv zeta.
  rewrite (add_assignment_stores _ _ _ _ _ _ _ _ _ Ht Hl). cbn [snd].
  assert (Hs1 : storable (JObj (set name (new_record t details priority user_id now) d))
                = true)
    by (apply storable_set; [exact Hn | now apply storable_new_record | exact Hs]).
  split; [now apply load_assignments_saved | exact Hs1].
Qed.

(** X4.  Adding twice under one name: the second record replaces the first.
    After both commands the store loads as a mapping with unique keys that
    holds exactly the second record under the name, with the second deadline
    readable from it, and is the mapping the second command alone would
    have produced. *)
Theorem add_assignment_overwrites
    (now1 now2 : datetime) (user1 user2 : Z) (name deadline1 deadline2 : str)
    (details1 details2 : option str) (priority1 priority2 : Z)
    (fs : filesystem) (t1 t2 : datetime) (d : dict value) :
  strptime deadline1 = Returned t1 ->
  strptime deadline2 = Returned t2 ->
  fst (load_assignments fs) = Returned (JObj d) ->
  storable (JObj d) = true ->
  text_ok name = true ->
  details_ok details1 = true ->
  details_ok details2 = true ->
  let fs1 := snd (add_assignment now1 user1 name deadline1 details1 priority1 fs) in
  let fs2 := snd (add_assignment now2 user2 name deadline2 details2 priority2 fs1) in
  let record2 := new_record t2 details2 priority2 user2 now2 in
  exists d2,
    load_assignments fs2 = (Returned (JObj d2), fs2)
    /\ NoDup (keys d2)
    /\ get name d2 = Some record2
    /\ entry_deadline record2 = Returned t2
    /\ (forall k, k <> name -> get k d2 = get k d)
    /\ d2 = set name record2 d.
Proof.
  intros Ht1 Ht2 Hl Hs Hn Hd1 Hd2. cbv zeta.
  destruct (add_assignment_then_load now1 user1 name deadline1 details1 priority1
              fs t1 d Ht1 Hl Hs Hn Hd1) as [Hl1 Hs1].
  set (fs1 := snd (add_assignment now1 user1 name deadline1 details1 priority1 fs)) in *.
  assert (Hl1' : fst (load_assignments fs1)
                 = Returned (JObj (set name (new_record t1 details1 priority1 user1 now1) d)))
    by now rewrite Hl1.
  destruct (add_assignment_then_load now2 user2 name deadline2 details2 priority2
              fs1 t2 _ Ht2 Hl1' Hs1 Hn Hd2) as [Hl2 Hs2].
  rewrite set_set in Hl2, Hs2.
  exists (set name (new_record t2 details2 priority2 user2 now2) d).
  split; [exact Hl2|]. split.
  { cbn [storable] in Hs2. apply andb_true_iff in Hs2 as [_ Hs2].
    now apply nodup_keys_NoDup. }
  split; [apply get_set_same|]. split.
  { apply entry_deadline_new_record. eapply strptime_valid. exact Ht2. }
  split; [|reflexivity].
  intros k Hk. now apply get_set_other.
Qed.

Lemma add_assignment_overwrites_witness :
  let fs1 := snd (add_assignment clock_2024_06_01_noon 7 (lit "essay")
                    (lit "2024-06-12 09:00") None 2 sample_store) in
  let fs2 := snd (add_assignment clock_2024_06_01_noon 8 (lit "essay")
                    (lit "2024-06-20 18:30") (Some (lit "final")) 5 fs1) in
  exists d2,
    load_assignments fs2 = (Returned (JObj d2), fs2)
    /\ NoDup (keys d2)
    /\ entry_deadline
         (new_record (mkdt 2024 6 20 18 30 0 0) (Some (lit "final")) 5 8
            clock_2024_06_01_noon)
       = Returned (mkdt 2024 6 20 18 30 0 0)
    /\ get (lit "essay") d2
       = Some (new_record (mkdt 2024 6 20 18 30 0 0) (Some (lit "final")) 5 8
                 clock_2024_06_01_noon).
Proof.
  assert (Ht1 : strptime (lit "2024-06-12 09:00") = Returned (mkdt 2024 6 12 9 0 0 0))
    by (vm_compute; reflexivity).
  assert (Ht2 : strptime (lit "2024-06-20 18:30") = Returned (mkdt 2024 6 20 18 30 0 0))
    by (vm_compute; reflexivity).
  assert (Hl : fst (load_assignments sample_store) = Returned (JObj sample_mapping))
    by (vm_compute; reflexivity).
  assert (Hs : storable (JObj sample_mapping) = true) by (vm_compute; reflexivity).
  destruct (add_assignment_overwrites clock_2024_06_01_noon clock_2024_06_01_noon
              7 8 (lit "essay") (lit "2024-06-12 09:00") (lit "2024-06-20 18:30")
              None (Some (lit "final")) 2 5 sample_store _ _ sample_mapping
              Ht1 Ht2 Hl Hs eq_refl eq_refl eq_refl)
    as (d2 & H1 & H2 & H3 & H4 & _).
  exists d2. repeat split; assumption.
Defined.

(** ** Keys of a loaded mapping *)

Lemma of_pairs_NoDup {V} (pairs : list (str * V)) : NoDup (keys (of_pairs pairs)).
Proof.
  unfold of_pairs.
  assert (H : forall acc : dict V, NoDup (keys acc) ->
            NoDup (keys (fold_left (fun d kv => set (fst kv) (snd kv) d) pairs acc))).
  { induction pairs as [|[k v] r IH]; intros acc Hacc; [exact Hacc|].
    simpl. apply IH. now apply set_NoDup. }
  apply H. constructor.
Qed.

Lemma match_number_not_object (s : str) (d : dict value) (rest : str) :
  match_number s <> Some (JObj d, rest).
Proof.
  unfold match_number.
  destruct (match s with
            | c :: r => if (c =? 45)%N then (true, r) else (false, s)
            | [] => (false, s)
            end) as [negative s0].
  destruct (scan_int_part s0) as [[ds s1]|]; [|discriminate].
  destruct (scan_frac_part s1) as [frac s2].
  destruct (scan_exp_part s2) as [ex s3].
  destruct frac, ex; discriminate.
Qed.

Lemma scan_literal_not_object (s : str) (d : dict value) (rest : str) :
  scan_literal s <> Done (JObj d) rest.
Proof.
  unfold scan_literal.
  repeat match goal with
         | |- context [strip_prefix ?p s] => destruct (strip_prefix p s); [discriminate|]
         end.
  rewrite of_option_Done. apply match_number_not_object.
Qed.

Lemma scan_once_object (f : nat) (s : str) (d : dict value) (rest : str) :
  scan_once f s = Done (JObj d) rest -> NoDup (keys d).
Proof.
  destruct f as [|f]; [discriminate|]. rewrite scan_once_S.
  destruct s as [|c r]; [discriminate|].
  destruct (c =? 34)%N.
  { intros H. apply scan_bind_Done in H as (b & r1 & _ & H). discriminate. }
  destruct (c =? 123)%N.
  { destruct (skip_ws r) as [|c' r']; [discriminate|].
    destruct (c' =? 125)%N; [intros [= <- _]; constructor|].
    intros H. apply scan_bind_Done in H as (pairs & r1 & _ & H).
    injection H as <- _. apply of_pairs_NoDup. }
  destruct (c =? 91)%N.
  { destruct (skip_ws r) as [|c' r']; [discriminate|].
    destruct (c' =? 93)%N; [discriminate|].
    intros H. apply scan_bind_Done in H as (items & r1 & _ & H). discriminate. }
  intros H. now apply scan_literal_not_object in H.
Qed.

Lemma loads_object (text : str) (d : dict value) :
  loads text = Returned (JObj d) -> NoDup (keys d).
Proof.
  unfold loads. destruct (starts_with_bom text); [discriminate|].
  destruct (scan_once _ _) as [v rest| |] eqn:E; try discriminate.
  destruct (skip_ws rest); [|discriminate].
  intros [= ->]. eapply scan_once_object. exact E.
Qed.

(** X5.  Whatever the backing file holds, a mapping that [load_assignments]
    returns has no repeated key: of several members with one key in the file
    only the last value is kept.  [/assignment_add] keeps it so: the mapping
    it writes has unique keys as well. *)
Theorem load_assignments_unique_keys (fs : filesystem) (d : dict value) :
  fst (load_assignments fs) = Returned (JObj d) ->
  NoDup (keys d)
  /\ (forall name record, NoDup (keys (set name record d)))
  /\ (forall name, NoDup (keys (del name d))).
Proof.
  intros H.
  assert (Hd : NoDup (keys d)).
  { destruct (assignments_file fs) as [text|] eqn:E.
    - rewrite (load_assignments_text _ _ E) in H.
      destruct (loads text) as [v|e] eqn:El.
      + injection H as ->. now apply loads_object in El.
      + destruct (loads_raises _ _ El) as [-> | ->]; [|discriminate].
        injection H as <-. constructor.
    - rewrite (load_assignments_missing _ E) in H. injection H as <-. constructor. }
  split; [exact Hd|]. split; intros; [now apply set_NoDup | now apply del_NoDup].
Qed.

Lemma load_assignments_unique_keys_witness :
  fst (load_assignments (mkfs true (Some file_with_repeated_key)))
  = Returned (JObj [(lit "essay", JInt 3); (lit "quiz", JInt 2)])
  /\ NoDup (keys [(lit "essay", JInt 3); (lit "quiz", JInt 2)]).
Proof.
  assert (H : fst (load_assignments (mkfs true (Some file_with_repeated_key)))
              = Returned (JObj [(lit "essay", JInt 3); (lit "quiz", JInt 2)]))
    by (vm_compute; reflexivity).
  split; [exact H|].
  exact (proj1 (load_assignments_unique_keys _ _ H)).
Defined.

(** ** The listing in closed form *)

Lemma partition_entries_filter (now : datetime) (d : dict value) :
  all_dated d ->
  forall upcoming past,
    partition_entries now d upcoming past
    = Returned (upcoming ++ filter (is_upcoming now) (dated d),
                past ++ filter (is_past now) (dated d)).
Proof.
  unfold all_dated, dated.
  induction d as [|[name data] rest IH]; intros Hall upcoming past.
  - simpl. now rewrite !app_nil_r.
  - destruct (Hall name data (or_introl eq_refl)) as [t Ht].
    cbn [partition_entries flat_map fst snd]. rewrite Ht. cbn [rbind app filter].
    unfold is_upcoming at 1, is_past at 1. cbn [snd].
    destruct (geb t now); cbn [negb];
      rewrite IH by (intros; eapply Hall; right; eassumption);
      now rewrite <- app_assoc.
Qed.

Lemma list_assignments_computes (now : datetime) (show_all : bool) (limit : Z)
    (fs : filesystem) (d : dict value) :
  fst (load_assignments fs) = Returned (JObj d) ->
  all_dated d ->
  fst (list_assignments now show_all limit fs)
  = Returned
      match d, to_show now show_all d with
      | [], _ => NoAssignments
      | _ :: _, [] => NoUpcomingAssignments
      | _ :: _, shown => YourAssignments (map fst (slice_to limit shown))
      end.
Proof.
  intros Hload Hall.
  unfold list_assignments, bind at 1.
  destruct (load_assignments fs) as [r fs'] eqn:El. simpl in Hload. subst r.
  destruct d as [|kv d']; [reflexivity|].
  cbn [truthy List.length Nat.eqb negb].
  unfold bind, lift. cbn [items].
  rewrite (partition_entries_filter now _ Hall). cbn [fst snd app].
  unfold to_show.
  destruct (sort_by by_deadline (filter (is_upcoming now) (dated (kv :: d')))
            ++ (if show_all
                then sort_by by_deadline (filter (is_past now) (dated (kv :: d')))
                else [])); reflexivity.
Qed.

(** The limit only enters through the final slice. *)
Lemma list_assignments_by_limit (now : datetime) (show_all : bool) (fs : filesystem) :
  (exists shown : list entry,
      forall limit,
        fst (list_assignments now show_all limit fs)
        = Returned (YourAssignments (map fst (slice_to limit shown))))
  \/ (exists r,
        (forall shown, r <> Returned (YourAssignments shown))
        /\ forall limit, fst (list_assignments now show_all limit fs) = r).
Proof.
  unfold list_assignments, bind, lift, ret.
  destruct (load_assignments fs) as [[v|e] fs'];
    [|right; eexists; split; [|reflexivity]; discriminate].
  destruct (negb (truthy v));
    [right; eexists; split; [|reflexivity]; discriminate|].
  destruct (items v) as [d|e];
    [|right; eexists; split; [|reflexivity]; discriminate].
  destruct (partition_entries now d [] []) as [[up pa]|e];
    [|right; eexists; split; [|reflexivity]; discriminate].
  cbn [fst snd].
  destruct (sort_by by_deadline up ++ (if show_all then sort_by by_deadline pa else []))
    as [|e shown] eqn:E;
    [right; eexists; split; [|reflexivity]; discriminate|].
  left. exists (e :: shown). reflexivity.
Qed.

(** X6.  A negative [limit] does not empty the listing: if the command lists
    [full] when given a limit above the number of entries it shows, then with
    [limit = -k] it lists [full] without its last [k] entries. *)
Theorem list_assignments_negative_limit_drops
    (now : datetime) (show_all : bool) (fs : filesystem)
    (limit : Z) (full : list (str * value)) (k : nat) :
  fst (list_assignments now show_all limit fs) = Returned (YourAssignments full) ->
  Z.of_nat (List.length full) < limit ->
  (0 < k)%nat ->
  fst (list_assignments now show_all (- Z.of_nat k) fs)
  = Returned (YourAssignments (firstn (List.length full - k) full)).
Proof.
  intros H Hlimit Hk.
  destruct (list_assignments_by_limit now show_all fs) as [(l & Hl) | (r & Hr & Hl)];
    [|rewrite Hl in H; now apply Hr in H].
  rewrite Hl in *. injection H as H.
  rewrite slice_to_nonneg in H by lia.
  assert (Hlen : List.length full = Nat.min (Z.to_nat limit) (List.length l))
    by (rewrite <- H, length_map; apply length_firstn).
  assert (Hall : (List.length l <= Z.to_nat limit)%nat) by lia.
  rewrite firstn_all2 in H by exact Hall. subst full.
  rewrite slice_to_negative by exact Hk.
  now rewrite length_map, firstn_map.
Qed.

Lemma list_assignments_negative_limit_drops_witness :
  let full := [nth 2 sample_mapping ([], JNull); nth 0 sample_mapping ([], JNull);
               nth 1 sample_mapping ([], JNull)] in
  fst (list_assignments clock_2024_06_01_noon true 10 sample_store)
  = Returned (YourAssignments full)
  /\ fst (list_assignments clock_2024_06_01_noon true (- Z.of_nat 1) sample_store)
     = Returned (YourAssignments (firstn (3 - 1) full)).
Proof.
  assert (H : fst (list_assignments clock_2024_06_01_noon true 10 sample_store)
              = Returned (YourAssignments
                            [nth 2 sample_mapping ([], JNull);
                             nth 0 sample_mapping ([], JNull);
                             nth 1 sample_mapping ([], JNull)]))
    by (vm_compute; reflexivity).
  split; [exact H|].
  exact (list_assignments_negative_limit_drops clock_2024_06_01_noon true sample_store
           10 _ 1 H ltac:(simpl; lia) ltac:(lia)).
Defined.

(** X7.  [/assignment_list] only reads: whatever the backing file holds and
    whatever the command answers or raises, afterwards the file has the text
    it had before (the [data] directory exists).  The same holds for
    [load_assignments]. *)
Theorem list_assignments_read_only
    (now : datetime) (show_all : bool) (limit : Z) (fs : filesystem) :
  snd (list_assignments now show_all limit fs) = mkfs true (assignments_file fs)
  /\ snd (load_assignments fs) = mkfs true (assignments_file fs).
Proof.
  split; [|apply load_assignments_run].
  pose proof (load_assignments_run fs) as Hs.
  unfold list_assignments, bind at 1.
  destruct (load_assignments fs) as [[v|e] fs']; simpl in Hs; subst fs';
    [|reflexivity].
  destruct (negb (truthy v)); [reflexivity|].
  unfold bind, lift. destruct (items v) as [d|e]; [|reflexivity].
  destruct (partition_entries now d [] []) as [[up pa]|e]; [|reflexivity].
  cbn [fst snd].
  destruct (sort_by by_deadline up ++ (if show_all then sort_by by_deadline pa else []));
    reflexivity.
Qed.

(** X8.  Entries that share a deadline are listed in the order of the store:
    among the upcoming entries, and among the past ones, those with any one
    deadline appear in the listing in the order in which the mapping holds
    them. *)
Theorem list_assignments_ties_keep_order
    (now : datetime) (show_all : bool) (limit : Z)
    (fs : filesystem) (d : dict value) :
  fst (load_assignments fs) = Returned (JObj d) ->
  all_dated d ->
  exists upcoming past : list entry,
    fst (list_assignments now show_all limit fs)
    = Returned
        match d, upcoming ++ (if show_all then past else []) with
        | [], _ => NoAssignments
        | _ :: _, [] => NoUpcomingAssignments
        | _ :: _, shown => YourAssignments (map fst (slice_to limit shown))
        end
    /\ (forall t : Z,
          filter (fun e => by_deadline e =? t) upcoming
          = filter (fun e => by_deadline e =? t) (filter (is_upcoming now) (dated d)))
    /\ (forall t : Z,
          filter (fun e => by_deadline e =? t) past
          = filter (fun e => by_deadline e =? t) (filter (is_past now) (dated d))).
Proof.
  intros Hl Hall.
  exists (sort_by by_deadline (filter (is_upcoming now) (dated d))),
         (sort_by by_deadline (filter (is_past now) (dated d))).
  split; [rewrite (list_assignments_computes now show_all limit fs d Hl Hall);
          unfold to_show; now destruct d|].
  split; intros t; apply sort_by_stable.
Qed.

Lemma list_assignments_ties_keep_order_witness :
  fst (load_assignments store_with_tie) = Returned (JObj tie_mapping)
  /\ all_dated tie_mapping
  /\ exists upcoming past : list entry,
       fst (list_assignments clock_2024_06_01_noon false 10 store_with_tie)
       = Returned
           match tie_mapping, upcoming ++ [] with
           | [], _ => NoAssignments
           | _ :: _, [] => NoUpcomingAssignments
           | _ :: _, shown => YourAssignments (map fst (slice_to 10 shown))
           end
       /\ (forall t : Z,
             filter (fun e => by_deadline e =? t) upcoming
             = filter (fun e => by_deadline e =? t)
                 (filter (is_upcoming clock_2024_06_01_noon) (dated tie_mapping)))
       /\ (forall t : Z,
             filter (fun e => by_deadline e =? t) past
             = filter (fun e => by_deadline e =? t)
                 (filter (is_past clock_2024_06_01_noon) (dated tie_mapping))).
Proof.
  assert (Hl : fst (load_assignments store_with_tie) = Returned (JObj tie_mapping))
    by (vm_compute; reflexivity).
  assert (Hall : all_dated tie_mapping).
  { intros name data Hin.
    assert (F : Forall (fun kv => exists t, entry_deadline (snd kv) = Returned t)
                  tie_mapping)
      by (repeat constructor; eexists; vm_compute; reflexivity).
    rewrite Forall_forall in F. exact (F _ Hin). }
  split; [exact Hl | split; [exact Hall |]].
  exact (list_assignments_ties_keep_order clock_2024_06_01_noon false 10
           store_with_tie tie_mapping Hl Hall).
Defined.

(** ** Commands in sequence *)

Lemma map_fst_dated (d : dict value) : all_dated d -> map fst (dated d) = d.
Proof.
  unfold all_dated, dated. induction d as [|[name data] r IH]; intros H; [reflexivity|].
  destruct (H name data (or_introl eq_refl)) as [t Ht].
  cbn [flat_map fst snd]. rewrite Ht. cbn [app map fst].
  f_equal. apply IH. intros; eapply H; right; eassumption.
Qed.

Lemma filter_partition_perm {A} (p : A -> bool) (l : list A) :
  Permutation (filter p l ++ filter (fun x => negb (p x)) l) l.
Proof.
  induction l as [|x r IH]; [reflexivity|].
  simpl. destruct (p x); simpl.
  - now apply perm_skip.
  - rewrite <- Permutation_middle. now apply perm_skip.
Qed.

Lemma to_show_all_perm (now : datetime) (d : dict value) :
  Permutation (to_show now true d) (dated d).
Proof.
  unfold to_show. rewrite !sort_by_perm. apply filter_partition_perm.
Qed.

Lemma In_set {V} (k : str) (v : V) (d : dict V) : In (k, v) (set k v d).
Proof.
  induction d as [|[k' v'] r IH]; simpl; [auto|].
  destruct (str_eqb k k') eqn:E; simpl; [|auto].
  apply str_eqb_eq in E. subst. auto.
Qed.

Lemma In_set_inv {V} (k : str) (v : V) (d : dict V) (kv : str * V) :
  In kv (set k v d) -> In kv d \/ snd kv = v.
Proof.
  induction d as [|[k' v'] r IH]; simpl.
  - intros [<-|[]]. now right.
  - destruct (str_eqb k k'); simpl; intros [<-|H]; auto.
    destruct (IH H); auto.
Qed.

Lemma length_set {V} (k : str) (v : V) (d : dict V) :
  (List.length (set k v d) <= S (List.length d))%nat.
Proof.
  induction d as [|[k' v'] r IH]; simpl; [lia|].
  destruct (str_eqb k k'); simpl; lia.
Qed.

(** X9.  An assignment that has just been added is listed: on a store whose
    entries all carry a readable deadline, after [/assignment_add] the command
    [/assignment_list] with [show_all] and a limit that covers the store lists
    exactly the entries of the new mapping, the new record among them. *)
Theorem added_assignment_is_listed
    (now later : datetime) (user_id : Z) (name deadline : str)
    (details : option str) (priority limit : Z) (fs : filesystem)
    (t : datetime) (d : dict value) :
  strptime deadline = Returned t ->
  fst (load_assignments fs) = Returned (JObj d) ->
  storable (JObj d) = true ->
  all_dated d ->
  text_ok name = true ->
  details_ok details = true ->
  Z.of_nat (List.length d) < limit ->
  let record := new_record t details priority user_id now in
  let fs1 := snd (add_assignment now user_id name deadline details priority fs) in
  exists shown,
    fst (list_assignments later true limit fs1) = Returned (YourAssignments shown)
    /\ In (name, record) shown
    /\ Permutation shown (set name record d).
Proof.
  intros Ht Hl Hs Hall Hn Hd Hlimit. cbv zeta.
  destruct (add_assignment_then_load now user_id name deadline details priority
              fs t d Ht Hl Hs Hn Hd) as [Hl1 _].
  set (record := new_record t details priority user_id now) in *.
  set (fs1 := snd (add_assignment now user_id name deadline details priority fs)) in *.
  remember (set name record d) as d1 eqn:Ed1.
  assert (Hall1 : all_dated d1).
  { intros k data Hin. rewrite Ed1 in Hin. apply In_set_inv in Hin as [Hin|Heq].
    - eapply Hall. exact Hin.
    - cbn [snd] in Heq. subst data. exists t.
      apply entry_deadline_new_record. eapply strptime_valid. exact Ht. }
  assert (Hl1' : fst (load_assignments fs1) = Returned (JObj d1)) by now rewrite Hl1.
  pose proof (list_assignments_computes later true limit fs1 d1 Hl1' Hall1) as Hc.
  pose proof (to_show_all_perm later d1) as Hp.
  assert (Hm : Permutation (map fst (to_show later true d1)) d1).
  { rewrite <- (map_fst_dated d1 Hall1) at 2. now apply Permutation_map. }
  assert (Hin : In (name, record) d1) by (rewrite Ed1; apply In_set).
  assert (Hlen : (List.length (to_show later true d1) <= Z.to_nat limit)%nat).
  { apply Permutation_length in Hm. rewrite length_map in Hm.
    pose proof (length_set name record d) as Hle. rewrite <- Ed1 in Hle.
    apply Nat.le_trans with (List.length d1); [apply Nat.eq_le_incl; exact Hm|].
    eapply Nat.le_trans; [exact Hle|]. clear -Hlimit. lia. }
  exists (map fst (to_show later true d1)).
  split; [|split; [eapply Permutation_in; [symmetry; exact Hm | exact Hin] | exact Hm]].
  rewrite Hc. destruct d1 as [|kv d1']; [contradiction|].
  destruct (to_show later true (kv :: d1')) as [|e l] eqn:E.
  - apply Permutation_length in Hm. discriminate.
  - rewrite slice_to_nonneg by lia. now rewrite firstn_all2.
Qed.

Lemma added_assignment_is_listed_witness :
  let record := new_record (mkdt 2024 6 12 9 0 0 0) None 2 7 clock_2024_06_01_noon in
  let fs1 := snd (add_assignment clock_2024_06_01_noon 7 (lit "exam")
                    (lit "2024-06-12 09:00") None 2 sample_store) in
  exists shown,
    fst (list_assignments clock_2024_06_01_noon true 10 fs1)
    = Returned (YourAssignments shown)
    /\ In (lit "exam", record) shown
    /\ Permutation shown (set (lit "exam") record sample_mapping).
Proof.
  assert (Ht : strptime (lit "2024-06-12 09:00") = Returned (mkdt 2024 6 12 9 0 0 0))
    by (vm_compute; reflexivity).
  assert (Hl : fst (load_assignments sample_store) = Returned (JObj sample_mapping))
    by (vm_compute; reflexivity).
  assert (Hs : storable (JObj sample_mapping) = true) by (vm_compute; reflexivity).
  assert (Hall : all_dated sample_mapping).
  { intros name data Hin.
    assert (F : Forall (fun kv => exists t, entry_deadline (snd kv) = Returned t)
                  sample_mapping)
      by (repeat constructor; eexists; vm_compute; reflexivity).
    rewrite Forall_forall in F. exact (F _ Hin). }
  exact (added_assignment_is_listed clock_2024_06_01_noon clock_2024_06_01_noon 7
           (lit "exam") (lit "2024-06-12 09:00") None 2 10 sample_store _
           sample_mapping Ht Hl Hs Hall eq_refl eq_refl ltac:(vm_compute; reflexivity)).
Defined.

Lemma del_set_fresh {V} (k : str) (v : V) (d : dict V) :
  mem k d = false -> del k (set k v d) = d.
Proof.
  unfold mem. induction d as [|[k' v'] r IH]; simpl.
  - now rewrite str_eqb_refl.
  - destruct (str_eqb k k') eqn:E; [discriminate|].
    intros H. simpl. now rewrite E, IH.
Qed.

(** X10.  Adding under a name the store does not hold and then removing that
    name puts the store back: the removal is confirmed, the backing file is
    the encoding of the mapping held before and loads as that mapping. *)
Theorem add_then_remove_restores
    (now : datetime) (user_id : Z) (name deadline : str)
    (details : option str) (priority : Z) (fs : filesystem)
    (t : datetime) (d : dict value) :
  strptime deadline = Returned t ->
  fst (load_assignments fs) = Returned (JObj d) ->
  storable (JObj d) = true ->
  text_ok name = true ->
  details_ok details = true ->
  mem name d = false ->
  let fs1 := snd (add_assignment now user_id name deadline details priority fs) in
  remove_assignment name fs1
  = (Returned (AssignmentRemoved name), mkfs true (Some (dumps (JObj d))))
  /\ load_assignments (snd (remove_assignment name fs1))
     = (Returned (JObj d), mkfs true (Some (dumps (JObj d)))).
Proof.
  intros Ht Hl Hs Hn Hd Hm. cbv zeta.
  destruct (add_assignment_then_load now user_id name deadline details priority
              fs t d Ht Hl Hs Hn Hd) as [Hl1 _].
  assert (E : remove_assignment name
                (snd (add_assignment now user_id name deadline details priority fs))
              = (Returned (AssignmentRemoved name), mkfs true (Some (dumps (JObj d))))).
  { rewrite (remove_assignment_effect name _ _ ltac:(now rewrite Hl1)).
    now rewrite mem_set, del_set_fresh. }
  split; [exact E|]. rewrite E. cbn [snd]. now apply load_assignments_saved.
Qed.

Lemma add_then_remove_restores_witness :
  let fs1 := snd (add_assignment clock_2024_06_01_noon 7 (lit "exam")
                    (lit "2024-06-12 09:00") None 2 sample_store) in
  remove_assignment (lit "exam") fs1
  = (Returned (AssignmentRemoved (lit "exam")),
     mkfs true (Some (dumps (JObj sample_mapping))))
  /\ load_assignments (snd (remove_assignment (lit "exam") fs1))
     = (Returned (JObj sample_mapping), mkfs true (Some (dumps (JObj sample_mapping)))).
Proof.
  assert (Ht : strptime (lit "2024-06-12 09:00") = Returned (mkdt 2024 6 12 9 0 0 0))
    by (vm_compute; reflexivity).
  assert (Hl : fst (load_assignments sample_store) = Returned (JObj sample_mapping))
    by (vm_compute; reflexivity).
  assert (Hs : storable (JObj sample_mapping) = true) by (vm_compute; reflexivity).
  exact (add_then_remove_restores clock_2024_06_01_noon 7 (lit "exam")
           (lit "2024-06-12 09:00") None 2 sample_store _ sample_mapping
           Ht Hl Hs eq_refl eq_refl eq_refl).
Defined.

(** ** More on deadlines *)

(** X11.  The relative rendering never reads "0 days ago": for a deadline in
    the past the number shown is the elapsed time rounded up to whole days,
    so at least 1; and "In n days" is only shown with [n] at least 2, the
    remaining time rounded down to whole days. *)
Theorem format_deadline_relative_counts (deadline now : datetime) :
  valid deadline = true ->
  (to_us deadline < to_us now ->
   exists n,
     1 <= n
     /\ (n - 1) * us_per_day < to_us now - to_us deadline <= n * us_per_day
     /\ format_deadline (isoformat deadline) RELATIVE now
        = Returned (str_of_int n ++ lit " days ago"))
  /\ (to_us now + 2 * us_per_day <= to_us deadline ->
      exists n,
        2 <= n
        /\ n * us_per_day <= to_us deadline - to_us now < (n + 1) * us_per_day
        /\ format_deadline (isoformat deadline) RELATIVE now
           = Returned (lit "In " ++ str_of_int n ++ lit " days")).
Proof.
  intros Hv. unfold format_deadline. rewrite (fromisoformat_isoformat _ Hv).
  cbn [rbind]. unfold sub, timedelta_days, days.
  pose proof (Z.div_mod (to_us deadline - to_us now) us_per_day ltac:(discriminate)) as Hdm.
  pose proof (Z.mod_pos_bound (to_us deadline - to_us now) us_per_day eq_refl) as Hb.
  set (q := (to_us deadline - to_us now) / us_per_day) in *.
  set (m := (to_us deadline - to_us now) mod us_per_day) in *.
  split; intros H.
  - exists (Z.abs q).
    destruct (Z.ltb_spec (to_us deadline - to_us now) (0 * us_per_day)); [|lia].
    assert (q < 0) by nia. repeat split; try lia; nia.
  - exists q.
    destruct (Z.ltb_spec (to_us deadline - to_us now) (0 * us_per_day)); [lia|].
    destruct (Z.ltb_spec (to_us deadline - to_us now) (1 * us_per_day)); [lia|].
    destruct (Z.ltb_spec (to_us deadline - to_us now) (2 * us_per_day)); [lia|].
    assert (2 <= q) by (unfold us_per_day in *; nia).
    repeat split; try lia; nia.
Qed.

Lemma format_deadline_relative_counts_witness :
  let deadline := mkdt 2024 6 1 11 59 59 999999 in
  valid deadline = true
  /\ to_us deadline < to_us clock_2024_06_01_noon
  /\ exists n,
       1 <= n
       /\ (n - 1) * us_per_day < to_us clock_2024_06_01_noon - to_us deadline
          <= n * us_per_day
       /\ format_deadline (isoformat deadline) RELATIVE clock_2024_06_01_noon
          = Returned (str_of_int n ++ lit " days ago").
Proof.
  assert (Hv : valid (mkdt 2024 6 1 11 59 59 999999) = true) by reflexivity.
  assert (Hp : to_us (mkdt 2024 6 1 11 59 59 999999) < to_us clock_2024_06_01_noon)
    by reflexivity.
  split; [exact Hv | split; [exact Hp |]].
  exact (proj1 (format_deadline_relative_counts _ clock_2024_06_01_noon Hv) Hp).
Defined.

(** ** The short format and [strptime] agree *)

Lemma pad_2 (n : Z) :
  pad 2 n = [digit_char (n / 10 mod 10); digit_char (n mod 10)].
Proof. reflexivity. Qed.

Lemma sep_cons {A} (c : N) (rest : str) (k : str -> option A) :
  sep c (c :: rest) k = k rest.
Proof. unfold sep. now rewrite N.eqb_refl. Qed.

Lemma directive_Y_pad {A} (y : Z) (rest : str) (k : Z -> str -> option A) (x : A) :
  0 <= y < 10000 ->
  k y rest = Some x -> directive_Y (pad 4 y ++ rest) k = Some x.
Proof.
  intros Hy Hk. unfold directive_Y.
  now rewrite take_digits_pad by (simpl; lia).
Qed.

(** The numbers below a bound, for case analysis. *)
Lemma below_cases (n : Z) (bound : nat) :
  0 <= n < Z.of_nat bound -> In n (map Z.of_nat (seq 0 bound)).
Proof.
  intros H. apply in_map_iff. exists (Z.to_nat n).
  split; [lia | apply in_seq; lia].
Qed.

Ltac by_cases H :=
  simpl in H;
  repeat (destruct H as [H|H];
          [subst;
           first [ lia
                 | vm_compute;
                   match goal with
                   | Hk : _ = Some _ |- _ => vm_compute in Hk; now rewrite Hk
                   end ] |]);
  contradiction.

Lemma directive_m_pad {A} (m : Z) (rest : str) (k : Z -> str -> option A) (x : A) :
  1 <= m <= 12 ->
  k m rest = Some x -> directive_m (pad 2 m ++ rest) k = Some x.
Proof.
  intros Hm Hk. pose proof (below_cases m 13 ltac:(lia)) as H. by_cases H.
Qed.

Lemma directive_d_pad {A} (d : Z) (rest : str) (k : Z -> str -> option A) (x : A) :
  1 <= d <= 31 ->
  k d rest = Some x -> directive_d (pad 2 d ++ rest) k = Some x.
Proof.
  intros Hd Hk. pose proof (below_cases d 32 ltac:(lia)) as H. by_cases H.
Qed.

Lemma directive_H_pad {A} (hh : Z) (rest : str) (k : Z -> str -> option A) (x : A) :
  0 <= hh <= 23 ->
  k hh rest = Some x -> directive_H (pad 2 hh ++ rest) k = Some x.
Proof.
  intros Hh Hk. pose proof (below_cases hh 24 ltac:(lia)) as H. by_cases H.
Qed.

Lemma directive_M_pad {A} (mi : Z) (rest : str) (k : Z -> str -> option A) (x : A) :
  0 <= mi <= 59 ->
  k mi rest = Some x -> directive_M (pad 2 mi ++ rest) k = Some x.
Proof.
  intros Hm Hk. pose proof (below_cases mi 60 ltac:(lia)) as H. by_cases H.
Qed.

Lemma is_space_digit_char (d : Z) : 0 <= d < 10 -> is_space (digit_char d) = false.
Proof.
  intros H. pose proof (below_cases d 10 ltac:(lia)) as Hc. simpl in Hc.
  repeat (destruct Hc as [Hc|Hc]; [subst; reflexivity|]). contradiction.
Qed.

Lemma spaces_one {A} (c : N) (r : str) (k : str -> option A) (x : A) :
  is_space c = false ->
  k (c :: r) = Some x -> spaces (32%N :: c :: r) k = Some x.
Proof.
  intros Hc Hk. cbn [spaces]. change (is_space 32) with true. cbv beta iota.
  now rewrite Hc, Hk.
Qed.





(** ** A missing or unreadable backing file *)



(** X14.  [/assignment_add] keeps the order of the mapping: a new name goes
    to the end, a name already present keeps its place, and the other names
    stay where they were. *)
Theorem add_assignment_keeps_order
    (now : datetime) (user_id : Z) (name deadline : str)
    (details : option str) (priority : Z) (fs : filesystem)
    (t : datetime) (d : dict value) :
  strptime deadline = Returned t ->
  fst (load_assignments fs) = Returned (JObj d) ->
  storable (JObj d) = true ->
  text_ok name = true ->
  details_ok details = true ->
  exists d1,
    fst (load_assignments
           (snd (add_assignment now user_id name deadline details priority fs)))
    = Returned (JObj d1)
    /\ keys d1 = if mem name d then keys d else keys d ++ [name].
Proof.
  intros Ht Hl Hs Hn Hd.
  destruct (add_assignment_then_load now user_id name deadline details priority
              fs t d Ht Hl Hs Hn Hd) as [Hl1 _].
  eexists. split; [now rewrite Hl1 | apply keys_set].
Qed.

Lemma add_assignment_keeps_order_witness :
  exists d1,
    fst (load_assignments
           (snd (add_assignment clock_2024_06_01_noon 7 (lit "quiz")
                   (lit "2024-07-01 10:00") None 3 sample_store)))
    = Returned (JObj d1)
    /\ keys d1 = [lit "essay"; lit "quiz"; lit "lab"].
Proof.
  assert (Ht : strptime (lit "2024-07-01 10:00") = Returned (mkdt 2024 7 1 10 0 0 0))
    by (vm_compute; reflexivity).
  assert (Hl : fst (load_assignments sample_store) = Returned (JObj sample_mapping))
    by (vm_compute; reflexivity).
  assert (Hs : storable (JObj sample_mapping) = true) by (vm_compute; reflexivity).
  destruct (add_assignment_keeps_order clock_2024_06_01_noon 7 (lit "quiz")
              (lit "2024-07-01 10:00") None 3 sample_store _ sample_mapping
              Ht Hl Hs eq_refl eq_refl) as (d1 & H1 & H2).
  exists d1. split; [exact H1 | exact H2].
Defined.

(** ** The prefix-command variant *)

Lemma show_lines_fold (store : BotCode.assignments) (response : str) :
  fold_left (fun response entry => response ++ BotCode.show_line entry) store response
  = response ++ flat_map BotCode.show_line store.
Proof.
  revert response. induction store as [|entry r IH]; intros response;
    cbn [fold_left flat_map].
  - now rewrite app_nil_r.
  - now rewrite IH, <- app_assoc.
Qed.

(** X15.  A newly added assignment is the last line of the listing: when the
    dictionary is not empty and does not hold the name, [!show_assignments]
    after [!add_assignment] sends what it would have sent before, followed by
    the line of the new assignment. *)
Theorem botcode_show_after_add
    (name deadline : str) (words : list str) (store : BotCode.assignments)
    (t : datetime) (before : str) :
  strptime deadline = Returned t ->
  mem name store = false ->
  store <> [] ->
  fst (BotCode.show_assignments store) = Returned before ->
  fst (BotCode.show_assignments
         (snd (BotCode.add_assignment name deadline words store)))
  = Returned (before
              ++ BotCode.show_line (name, BotCode.mkinfo t (BotCode.join_words words))).
Proof.
  intros Ht Hm Hne Hb. unfold BotCode.add_assignment. rewrite Ht. cbn [snd].
  rewrite set_fresh by (rewrite <- mem_In_keys; congruence).
  destruct store as [|e r]; [congruence|].
  cbn [BotCode.show_assignments app fst] in *. injection Hb as <-.
  rewrite !show_lines_fold. f_equal.
  change (e :: r ++ [(name, BotCode.mkinfo t (BotCode.join_words words))])
    with ((e :: r) ++ [(name, BotCode.mkinfo t (BotCode.join_words words))]).
  rewrite flat_map_app. cbn [flat_map]. now rewrite app_nil_r, app_assoc.
Qed.

Lemma botcode_show_after_add_witness :
  fst (BotCode.show_assignments botcode_sample)
  = Returned (lit "Here are your assignments:" ++ [10%N]
              ++ lit "**essay** - Deadline: 2024-06-10 12:00:00 | Details: first draft"
              ++ [10%N])
  /\ fst (BotCode.show_assignments
            (snd (BotCode.add_assignment (lit "quiz") (lit "2024-05-20 09:00") []
                    botcode_sample)))
     = Returned ((lit "Here are your assignments:" ++ [10%N]
                  ++ lit "**essay** - Deadline: 2024-06-10 12:00:00 | Details: first draft"
                  ++ [10%N])
                 ++ BotCode.show_line
                      (lit "quiz",
                       BotCode.mkinfo (mkdt 2024 5 20 9 0 0 0) (BotCode.join_words []))).
Proof.
  assert (Hb : fst (BotCode.show_assignments botcode_sample)
               = Returned (lit "Here are your assignments:" ++ [10%N]
                           ++ lit "**essay** - Deadline: 2024-06-10 12:00:00 | Details: first draft"
                           ++ [10%N]))
    by (vm_compute; reflexivity).
  split; [exact Hb|].
  refine (botcode_show_after_add (lit "quiz") (lit "2024-05-20 09:00") []
            botcode_sample (mkdt 2024 5 20 9 0 0 0) _ _ _ _ Hb).
  - vm_compute; reflexivity.
  - vm_compute; reflexivity.
  - discriminate.
Defined.

(** X16.  In the prefix-command variant, adding under a name the dictionary
    does not hold and removing that name gives the dictionary back as it was;
    a second removal answers not found and leaves it unchanged. *)
Theorem botcode_add_then_remove
    (name deadline : str) (words : list str) (store : BotCode.assignments)
    (t : datetime) :
  strptime deadline = Returned t ->
  mem name store = false ->
  let store1 := snd (BotCode.add_assignment name deadline words store) in
  BotCode.remove_assignment name store1
  = (Returned (lit "Assignment '" ++ name ++ lit "' has been removed."), store)
  /\ BotCode.remove_assignment name store
     = (Returned (lit "Assignment '" ++ name ++ lit "' not found."), store).
Proof.
  intros Ht Hm. cbv zeta. unfold BotCode.add_assignment. rewrite Ht. cbn [snd].
  unfold BotCode.remove_assignment. now rewrite mem_set, del_set_fresh, Hm.
Qed.

Lemma botcode_add_then_remove_witness :
  let store1 := snd (BotCode.add_assignment (lit "quiz") (lit "2024-05-20 09:00") []
                       botcode_sample) in
  BotCode.remove_assignment (lit "quiz") store1
  = (Returned (lit "Assignment '" ++ lit "quiz" ++ lit "' has been removed."),
     botcode_sample)
  /\ BotCode.remove_assignment (lit "quiz") botcode_sample
     = (Returned (lit "Assignment '" ++ lit "quiz" ++ lit "' not found."), botcode_sample).
Proof.
  exact (botcode_add_then_remove (lit "quiz") (lit "2024-05-20 09:00") []
           botcode_sample (mkdt 2024 5 20 9 0 0 0)
           ltac:(vm_compute; reflexivity) ltac:(vm_compute; reflexivity)).
Defined.

(** X17.  In the prefix-command variant the last write wins: adding twice
    under one name leaves the dictionary the second command alone would have
    left, with the second deadline and details under the name, the other
    entries untouched and the keys still unique. *)
Theorem botcode_add_overwrites
    (name deadline1 deadline2 : str) (words1 words2 : list str)
    (store : BotCode.assignments) (t1 t2 : datetime) :
  strptime deadline1 = Returned t1 ->
  strptime deadline2 = Returned t2 ->
  NoDup (keys store) ->
  let store1 := snd (BotCode.add_assignment name deadline1 words1 store) in
  let store2 := snd (BotCode.add_assignment name deadline2 words2 store1) in
  store2 = snd (BotCode.add_assignment name deadline2 words2 store)
  /\ get name store2 = Some (BotCode.mkinfo t2 (BotCode.join_words words2))
  /\ (forall k, k <> name -> get k store2 = get k store)
  /\ NoDup (keys store2).
Proof.
  intros Ht1 Ht2 Hnd. cbv zeta. unfold BotCode.add_assignment.
  rewrite Ht1, Ht2. cbn [snd]. rewrite set_set.
  repeat split.
  - apply get_set_same.
  - intros k Hk. now apply get_set_other.
  - now apply set_NoDup.
Qed.

Lemma botcode_add_overwrites_witness :
  let store2 := snd (BotCode.add_assignment (lit "essay") (lit "2024-06-20 18:30")
                       [lit "final"] botcode_sample) in
  get (lit "essay") store2 = Some (BotCode.mkinfo (mkdt 2024 6 20 18 30 0 0) (lit "final"))
  /\ NoDup (keys store2).
Proof.
  destruct (botcode_add_overwrites (lit "essay") (lit "2024-06-10 12:00")
              (lit "2024-06-20 18:30") [lit "first"; lit "draft"] [lit "final"]
              [] (mkdt 2024 6 10 12 0 0 0) (mkdt 2024 6 20 18 30 0 0)
              ltac:(vm_compute; reflexivity) ltac:(vm_compute; reflexivity)
              (NoDup_nil _)) as (_ & H2 & _ & H4).
  split; [exact H2 | exact H4].
Defined.



(** ** Days that do not exist *)

Lemma match_date_format_padded (t : datetime) :
  0 <= year t <= 9999 -> 1 <= month t <= 12 -> 1 <= day t <= 31 ->
  0 <= hour t <= 23 -> 0 <= minute t <= 59 ->
  match_date_format (strftime_date_format t)
  = Some (year t, month t, day t, hour t, minute t, []).
Proof.
  intros Hy Hm Hd Hh Hmi.
  unfold match_date_format, strftime_date_format. unlit.
  apply directive_Y_pad; [lia|]. cbn [app]. rewrite sep_cons.
  apply directive_m_pad; [lia|]. cbn [app]. rewrite sep_cons.
  apply directive_d_pad; [lia|]. cbn [app].
  rewrite (pad_2 (hour t)). cbn [app].
  apply spaces_one.
  { apply is_space_digit_char. apply Z.mod_pos_bound. lia. }
  change (digit_char (hour t / 10 mod 10) :: digit_char (hour t mod 10)
            :: 58%N :: pad 2 (minute t))
    with (pad 2 (hour t) ++ 58%N :: pad 2 (minute t)).
  apply directive_H_pad; [lia|]. rewrite sep_cons.
  rewrite <- (app_nil_r (pad 2 (minute t))).
  apply directive_M_pad; [lia | reflexivity].
Qed.

(** X19.  [strptime] checks the day against the month and the year: a
    deadline written [YYYY-MM-DD HH:MM] with a month 1..12, a day 1..31, an
    hour 0..23 and a minute 0..59 is accepted exactly when the day exists in
    that month of that year (and the year is not 0000); [/assignment_add]
    then answers with the invalid-date embed in the other case. *)
Theorem strptime_checks_the_calendar
    (y m d hh mi : Z) (now : datetime) (user_id : Z) (name : str)
    (details : option str) (priority : Z) (fs : filesystem) :
  0 <= y <= 9999 -> 1 <= m <= 12 -> 1 <= d <= 31 ->
  0 <= hh <= 23 -> 0 <= mi <= 59 ->
  let t := mkdt y m d hh mi 0 0 in
  let text := strftime_date_format t in
  strptime text
  = (if (1 <=? y) && (d <=? days_in_month y m) then Returned t else Raised ValueError)
  /\ ((1 <=? y) && (d <=? days_in_month y m) = false ->
      add_assignment now user_id name text details priority fs
      = (Returned InvalidDateFormat, fs)).
Proof.
  intros Hy Hm Hd Hh Hmi. cbv zeta.
  assert (E : strptime (strftime_date_format (mkdt y m d hh mi 0 0))
              = if (1 <=? y) && (d <=? days_in_month y m)
                then Returned (mkdt y m d hh mi 0 0) else Raised ValueError).
  { unfold strptime. rewrite match_date_format_padded by (cbn; lia).
    cbn [year month day hour minute]. unfold make, valid.
    cbn [year month day hour minute second microsecond].
    replace (y <=? 9999) with true by (symmetry; apply Z.leb_le; lia).
    replace (1 <=? m) with true by (symmetry; apply Z.leb_le; lia).
    replace (m <=? 12) with true by (symmetry; apply Z.leb_le; lia).
    replace (1 <=? d) with true by (symmetry; apply Z.leb_le; lia).
    replace (0 <=? hh) with true by (symmetry; apply Z.leb_le; lia).
    replace (hh <=? 23) with true by (symmetry; apply Z.leb_le; lia).
    replace (0 <=? mi) with true by (symmetry; apply Z.leb_le; lia).
    replace (mi <=? 59) with true by (symmetry; apply Z.leb_le; lia).
    cbn. rewrite !andb_true_r.
    destruct (1 <=? y), (d <=? days_in_month y m); reflexivity. }
  split; [exact E|].
  intros Hbad. rewrite Hbad in E.
  exact (add_assignment_refuses _ _ _ _ _ _ _ _ E).
Qed.

Lemma strptime_checks_the_calendar_witness :
  strptime (strftime_date_format (mkdt 2023 2 29 23 59 0 0)) = Raised ValueError
  /\ strptime (strftime_date_format (mkdt 2024 2 29 23 59 0 0))
     = Returned (mkdt 2024 2 29 23 59 0 0).
Proof.
  split.
  - exact (proj1 (strptime_checks_the_calendar 2023 2 29 23 59 clock_2024_06_01_noon
                    7 [] None 3 (mkfs false None)
                    ltac:(lia) ltac:(lia) ltac:(lia) ltac:(lia) ltac:(lia))).
  - exact (proj1 (strptime_checks_the_calendar 2024 2 29 23 59 clock_2024_06_01_noon
                    7 [] None 3 (mkfs false None)
                    ltac:(lia) ltac:(lia) ltac:(lia) ltac:(lia) ltac:(lia))).
Defined.

(** ** The store stays in good order *)

Lemma In_del {V} (name : str) (d : dict V) (kv : str * V) :
  In kv (del name d) -> In kv d.
Proof.
  induction d as [|[k' v'] r IH]; [tauto|].
  simpl. destruct (str_eqb name k'); simpl; tauto.
Qed.

Lemma all_dated_set (name : str) (t : datetime) (details : option str)
    (priority user_id : Z) (now : datetime) (d : dict value) :
  valid t = true -> all_dated d ->
  all_dated (set name (new_record t details priority user_id now) d).
Proof.
  intros Hv Hall k data Hin. apply In_set_inv in Hin as [Hin|Heq].
  - eapply Hall. exact Hin.
  - cbn [snd] in Heq. subst data. exists t. now apply entry_deadline_new_record.
Qed.

Lemma all_dated_del (name : str) (d : dict value) :
  all_dated d -> all_dated (del name d).
Proof. intros Hall k data Hin. eapply Hall, In_del. exact Hin. Qed.

Lemma load_assignments_same_file (fs fs' : filesystem) :
  assignments_file fs = assignments_file fs' ->
  fst (load_assignments fs) = fst (load_assignments fs').
Proof.
  intros E. unfold load_assignments, bind, ensure_data_dir, try_except, lift, ret.
  cbn [assignments_file]. rewrite E.
  destruct (assignments_file fs') as [text|]; [|reflexivity].
  destruct (loads text) as [v|[]]; reflexivity.
Qed.

(** X20.  A store in good order stays in good order: a fresh directory is in
    good order, and every command keeps it so, whether it succeeds or not
    ([/assignment_add] with a name and details made of Unicode scalar values).
    On such a store [/assignment_list] never raises. *)
Theorem store_stays_in_order (fs : filesystem) :
  (assignments_file fs = None -> store_in_order fs)
  /\ (store_in_order fs ->
      (forall now user_id name deadline details priority,
          text_ok name = true -> details_ok details = true ->
          store_in_order
            (snd (add_assignment now user_id name deadline details priority fs)))
      /\ (forall name, store_in_order (snd (remove_assignment name fs)))
      /\ (forall now show_all limit,
            store_in_order (snd (list_assignments now show_all limit fs))
            /\ exists answer,
                 fst (list_assignments now show_all limit fs) = Returned answer)).
Proof.
  split.
  - intros E. exists []. rewrite (load_assignments_missing _ E).
    repeat split. intros name data [].
  - intros (d & Hl & Hs & Hall). split; [|split].
    + intros now user_id name deadline details priority Hn Hd.
      destruct (strptime deadline) as [t|e] eqn:Ht.
      * destruct (add_assignment_then_load now user_id name deadline details priority
                    fs t d Ht Hl Hs Hn Hd) as [Hl1 Hs1].
        eexists. split; [now rewrite Hl1|]. split; [exact Hs1|].
        apply all_dated_set; [eapply strptime_valid; exact Ht | exact Hall].
      * rewrite (add_assignment_refuses _ _ _ _ _ _ _ _ Ht). now exists d.
    + intros name. rewrite (remove_assignment_effect name fs d Hl).
      destruct (mem name d); cbn [snd].
      * exists (del name d). pose proof (storable_del name d Hs) as Hs'.
        rewrite (load_assignments_saved _ true Hs').
        repeat split; [exact Hs' | now apply all_dated_del].
      * exists d. rewrite <- Hl. split; [now apply load_assignments_same_file|].
        split; assumption.
    + intros now show_all limit. split.
      * destruct (list_assignments_read_only now show_all limit fs) as [-> _].
        exists d. rewrite <- Hl. split; [now apply load_assignments_same_file|].
        split; assumption.
      * rewrite (list_assignments_computes now show_all limit fs d Hl Hall). eauto.
Qed.

Lemma store_stays_in_order_witness :
  store_in_order (mkfs false None)
  /\ store_in_order
       (snd (add_assignment clock_2024_06_01_noon 7 (lit "essay")
               (lit "2024-06-10 12:00") None 3 (mkfs false None)))
  /\ store_in_order
       (snd (add_assignment clock_2024_06_01_noon 7 (lit "essay")
               (lit "next week") None 3 (mkfs false None))).
Proof.
  assert (H0 : store_in_order (mkfs false None))
    by exact (proj1 (store_stays_in_order (mkfs false None)) eq_refl).
  split; [exact H0|].
  split; apply (proj2 (store_stays_in_order (mkfs false None)) H0); reflexivity.
Defined.



(** ** The file written is plain ASCII *)

Lemma printable_hex_char (n k : N) :
  printable (hex_char (N.land (N.shiftr n k) 15)) = true.
Proof.
  pose proof (nibble_lt n k) as H. unfold printable, hex_char.
  destruct (N.ltb_spec (N.land (N.shiftr n k) 15) 10);
    apply andb_true_iff; split; apply N.leb_le; lia.
Qed.

Lemma printable_hex4 (n : N) : forallb printable (hex4 n) = true.
Proof.
  unfold hex4. cbn [forallb]. rewrite !printable_hex_char.
  rewrite <- (N.shiftr_0_r n) at 1. now rewrite printable_hex_char.
Qed.

Lemma printable_escape_char (c : N) : forallb printable (escape_char c) = true.
Proof.
  unfold escape_char.
  repeat match goal with
         | |- context [(c =? ?k)%N] => destruct (c =? k)%N; [reflexivity|]
         end.
  destruct ((32 <=? c) && (c <=? 126))%N eqn:E;
    [cbn [forallb]; unfold printable; now rewrite E|].
  destruct (c <? 65536)%N; unlit; cbn [app forallb];
    rewrite ?forallb_app; cbn [forallb]; now rewrite !printable_hex4.
Qed.

Lemma printable_encode_string (s : str) : forallb printable (encode_string s) = true.
Proof.
  unfold encode_string. cbn [forallb]. rewrite forallb_app. cbn.
  rewrite andb_true_r. induction s as [|c s IH]; [reflexivity|].
  cbn [flat_map]. now rewrite forallb_app, printable_escape_char, IH.
Qed.

Lemma printable_str_of_int (z : Z) : forallb printable (str_of_int z) = true.
Proof.
  assert (H : forall u, forallb printable (uint_chars u) = true)
    by (induction u; simpl; auto).
  unfold str_of_int, str_of_N. destruct (z <? 0); cbn [forallb]; now rewrite H.
Qed.

Lemma printable_dumps (v : value) :
  float_free v = true -> forallb printable (dumps v) = true.
Proof.
  induction v as [|b|z|l|s|items IH|members IH] using value_nested_ind;
    cbn [float_free dumps]; intros Hf.
  - reflexivity.
  - now destruct b.
  - apply printable_str_of_int.
  - discriminate.
  - apply printable_encode_string.
  - unlit. cbn [app forallb]. rewrite forallb_app. cbn. rewrite andb_true_r.
    induction IH as [|x r Hx Hr IHr]; [reflexivity|].
    cbn [forallb] in Hf. apply andb_true_iff in Hf as [Hfx Hfr].
    destruct r as [|y r']; [now apply Hx|].
    rewrite join_items_more, forallb_app, (Hx Hfx). cbn [forallb andb].
    now apply IHr.
  - unlit. cbn [app forallb]. rewrite forallb_app. cbn. rewrite andb_true_r.
    induction IH as [|[k x] r Hx Hr IHr]; [reflexivity|].
    cbn [forallb snd] in Hf, Hx. apply andb_true_iff in Hf as [Hfx Hfr].
    destruct r as [|[k' y] r'].
    + rewrite join_members_one, forallb_app, printable_encode_string.
      cbn [forallb andb]. now apply Hx.
    + rewrite join_members_more, forallb_app, printable_encode_string.
      cbn [forallb andb]. rewrite forallb_app, (Hx Hfx). cbn [forallb andb].
      now apply IHr.
Qed.

Lemma float_free_new_record (t : datetime) (details : option str)
    (priority user_id : Z) (now : datetime) :
  float_free (new_record t details priority user_id now) = true.
Proof. reflexivity. Qed.

Lemma float_free_set (name : str) (v : value) (d : dict value) :
  float_free v = true -> float_free (JObj d) = true ->
  float_free (JObj (set name v d)) = true.
Proof.
  cbn [float_free]. intros Hv. induction d as [|[k' v'] r IH]; simpl.
  - now rewrite Hv.
  - intros H. apply andb_true_iff in H as [H1 H2].
    destruct (str_eqb name k'); simpl; [now rewrite Hv, H2 | now rewrite H1, IH].
Qed.

(** X22.  What [save_assignments] writes is plain printable ASCII, whatever
    characters the names and details contain: every character of the file is
    between space and tilde, for any value without floats.  This holds in
    particular for the file [/assignment_add] writes when the store held a
    mapping without floats. *)
Theorem saved_file_is_ascii (data : value) (fs : filesystem) :
  float_free data = true ->
  (exists text,
      assignments_file (snd (save_assignments data fs)) = Some text
      /\ forallb printable text = true)
  /\ (forall now user_id name deadline details priority t d,
        data = JObj d ->
        strptime deadline = Returned t ->
        fst (load_assignments fs) = Returned (JObj d) ->
        exists text,
          assignments_file
            (snd (add_assignment now user_id name deadline details priority fs))
          = Some text
          /\ forallb printable text = true).
Proof.
  intros Hf. split.
  - rewrite save_assignments_run. cbn [snd assignments_file].
    eexists. split; [reflexivity | now apply printable_dumps].
  - intros now user_id name deadline details priority t d -> Ht Hl.
    rewrite (add_assignment_stores _ _ _ _ _ _ _ _ _ Ht Hl).
    cbn [snd assignments_file]. eexists. split; [reflexivity|].
    apply printable_dumps, float_free_set; [apply float_free_new_record | exact Hf].
Qed.

Lemma saved_file_is_ascii_witness :
  let data := JObj [([233%N; 128512%N; 10%N], JStr [8364%N; 34%N])] in
  float_free data = true
  /\ exists text,
       assignments_file (snd (save_assignments data (mkfs false None))) = Some text
       /\ forallb printable text = true.
Proof.
  split; [reflexivity|].
  exact (proj1 (saved_file_is_ascii
                  (JObj [([233%N; 128512%N; 10%N], JStr [8364%N; 34%N])])
                  (mkfs false None) eq_refl)).
Defined.
